(** * car_picker: dataset index, answer choices and scoring

    A shallow embedding of the core of the [car_picker] package
    ([core/models.py], [core/parser.py], [core/indexer.py],
    [core/options.py], [core/engine.py]) together with the properties its
    specification states about it.

    Conventions of the embedding:
    - Python [int] is [Z], [float] is a binary64 [float] (primitive floats),
      [str] is [string], [set[str]] is [gset string], [dict] is [gmap].
    - A function that may raise returns a [result]; a function that mutates
      an object receives the object and returns its new value next to the
      result, also when it raises.
    - What the package takes from the Python library and from the operating
      system ([pathlib], [random.Random], [hashlib.md5], [int(str)]) is the
      interface [Platform]; the file system and the clock are arguments. *)

From Stdlib Require Import ZArith String Ascii List Floats DecimalString.
From stdpp Require Import base option list gmap strings sorting.

#[local] Set Warnings "-register-all,-inexact-float".
#[local] Open Scope string_scope.
#[local] Open Scope list_scope.
#[local] Open Scope Z_scope.

(** ** Python values the package relies on *)

(** The exceptions that occur in the modelled code. *)
Inductive exn :=
  | ValueError (msg : string)
  | RuntimeError (msg : string)
  | FileNotFoundError (msg : string)
  | KeyError (key : string)
  | IndexError
  | TypeError
  | AttributeError
  | OverflowError
  | OSError (msg : string).

(** Outcome of a call: a returned value or a raised exception. *)
Inductive result (A : Type) :=
  | Ok (a : A)
  | Raise (e : exn).
Arguments Ok {A} a.
Arguments Raise {A} e.

#[export] Instance result_ret : MRet result := fun _ a => Ok a.
#[export] Instance result_bind : MBind result := fun _ _ k r =>
  match r with
  | Ok a => k a
  | Raise e => Raise e
  end.

(** [s.split(sep)] for a one-character separator: never empty, and the empty
    string splits into one empty token. *)
Fixpoint split (sep : ascii) (s : string) : list string :=
  match s with
  | EmptyString => [EmptyString]
  | String c rest =>
      if Ascii.eqb c sep then EmptyString :: split sep rest
      else match split sep rest with
           | tok :: toks => String c tok :: toks
           | [] => [String c EmptyString]
           end
  end.

(** [str(n)] for an [int]. *)
Definition str_of_int (n : Z) : string :=
  NilZero.string_of_int (Z.to_int n).

(** [seq[i]] for a list and a non-negative index. *)
Definition list_getitem {A} (l : list A) (i : nat) : result A :=
  match l !! i with
  | Some a => Ok a
  | None => Raise IndexError
  end.

(** [d[key]] for a dictionary with string keys. *)
Definition dict_getitem {A} (d : gmap string A) (key : string) : result A :=
  match d !! key with
  | Some a => Ok a
  | None => Raise (KeyError key)
  end.

(** [float(n)] for an [int], rounded to the nearest binary64 value. *)
Definition float_of_int (n : Z) : float :=
  SF2Prim (SpecFloat.binary_normalize prec emax n 0 false).

(** [int(x)] for a finite [float]: truncation towards zero. *)
Definition int_of_float (x : float) : option Z :=
  match Prim2SF x with
  | SpecFloat.S754_zero _ => Some 0
  | SpecFloat.S754_finite sgn m e =>
      let mag := if 0 <=? e then Z.pos m * 2 ^ e else Z.pos m / 2 ^ (- e) in
      Some (if sgn then - mag else mag)
  | _ => None
  end.

(** A value read by [json.load]. *)
Inductive json :=
  | JNull
  | JBool (b : bool)
  | JInt (z : Z)
  | JFloat (x : float)
  | JStr (s : string)
  | JList (l : list json)
  | JDict (d : gmap string json).

(** What the package uses of the Python library.  [Path] is a
    [pathlib.Path]; [Rng] is the state of a [random.Random]. *)
Class Platform := {
  Path : Type;
  path_eq_dec :: EqDecision Path;
  (* str(path), Path(s), path.stem, path / name *)
  path_str : Path -> string;
  Path_of_str : string -> Path;
  path_stem : Path -> string;
  path_join : Path -> string -> Path;
  (* path <= other, the order sorted() uses: a total order in which, as for
     POSIX paths, two paths that compare equal are the same path *)
  path_le : relation Path;
  path_le_dec :: RelDecision path_le;
  path_le_po :: PartialOrder path_le;
  path_le_total :: Total path_le;
  (* Path(str(p)) == p *)
  Path_of_str_str : forall p, Path_of_str (path_str p) = p;
  (* int(s): None stands for ValueError *)
  int_of_str : string -> option Z;
  (* md5(data).hexdigest() *)
  md5_hexdigest : string -> string;
  (* random.Random: Random(seed) and the generator's _randbelow(n), which
     returns a number below n and the generator moved on *)
  Rng : Type;
  Random : Z -> Rng;
  randbelow : Rng -> nat -> nat * Rng;
  randbelow_lt : forall g n, (0 < n)%nat -> ((randbelow g n).1 < n)%nat
}.

Section PythonLibrary.
Context `{Platform}.

(** [int(s)] for a string. *)
Definition py_int (s : string) : result Z :=
  match int_of_str s with
  | Some n => Ok n
  | None => Raise (ValueError ("invalid literal for int() with base 10: " +:+ s))
  end.

(** [x[i], x[j] = x[j], x[i]] *)
Definition swap {A} (x : list A) (i j : nat) : list A :=
  match x !! i, x !! j with
  | Some a, Some b => <[j := a]> (<[i := b]> x)
  | _, _ => x
  end.

(** The loop of [Random.shuffle]:
    [for i in reversed(range(1, len(x))): j = randbelow(i + 1); swap]. *)
Fixpoint shuffle_from {A} (i : nat) (rng : Rng) (x : list A) : list A * Rng :=
  match i with
  | O => (x, rng)
  | S i' =>
      let '(j, rng) := randbelow rng (S i) in
      shuffle_from i' rng (swap x i j)
  end.

(** [rng.shuffle(x)]: the shuffled list and the generator afterwards. *)
Definition shuffle {A} (rng : Rng) (x : list A) : list A * Rng :=
  shuffle_from (length x - 1) rng x.

(** [rng.choice(seq)] *)
Definition choice {A} (rng : Rng) (seq : list A) : result A * Rng :=
  match seq with
  | [] => (Raise IndexError, rng)
  | _ =>
      let '(j, rng) := randbelow rng (length seq) in
      (list_getitem seq j, rng)
  end.
End PythonLibrary.

(** ** core/models.py *)

Module QuizMode.
Inductive t := MAKE | MAKE_MODEL | MAKE_MODEL_YEAR.

#[export] Instance eq_dec : EqDecision t.
Proof. solve_decision. Defined.

Definition value (self : t) : string :=
  match self with
  | MAKE => "make"
  | MAKE_MODEL => "make_model"
  | MAKE_MODEL_YEAR => "make_model_year"
  end.

Definition display_name (self : t) : string :=
  match self with
  | MAKE => "Make Only"
  | MAKE_MODEL => "Make + Model"
  | MAKE_MODEL_YEAR => "Make + Model + Year"
  end.
End QuizMode.

Module CarImage.
Section WithPlatform.
Context `{Platform}.
Record t := {
  id : string;
  path : Path;
  make : string;
  model : string;
  year : Z;
  random_id : string;
  specs : gmap string string
}.
End WithPlatform.
End CarImage.

Module AnswerChoice.
Section WithPlatform.
Context `{Platform}.
Record t := {
  id : string;
  label : string;
  car : CarImage.t
}.
End WithPlatform.
End AnswerChoice.

Module QuizQuestion.
Section WithPlatform.
Context `{Platform}.
Record t := {
  number : Z;
  car : CarImage.t;
  choices : list AnswerChoice.t
}.
End WithPlatform.
End QuizQuestion.

Module ScoreDetail.
Record t := {
  points : float;
  max_points : float;
  make_correct : bool;
  model_correct : bool;
  year_correct : bool;
  mode : QuizMode.t
}.
End ScoreDetail.

Module QuestionResult.
Section WithPlatform.
Context `{Platform}.
Record t := {
  question : QuizQuestion.t;
  selected_choice : AnswerChoice.t;
  score : ScoreDetail.t
}.
End WithPlatform.
End QuestionResult.

Module QuizState.
Section WithPlatform.
Context `{Platform}.
Record t := {
  mode : QuizMode.t;
  total_questions : Z;
  duration_seconds : Z;
  used_ids : gset string;
  history : list QuestionResult.t;
  current_question : option QuizQuestion.t;
  score : float;
  start_time : option float;
  completed : bool;
  rng_seed : option Z;
  rng : option Rng
}.

(** [self.mode = v] *)
Definition set_mode (v : QuizMode.t) (self : t) : t :=
  {| mode := v; total_questions := total_questions self;
     duration_seconds := duration_seconds self;
     used_ids := used_ids self; history := history self;
     current_question := current_question self; score := score self;
     start_time := start_time self; completed := completed self;
     rng_seed := rng_seed self; rng := rng self |}.

(** [self.duration_seconds = v] *)
Definition set_duration_seconds (v : Z) (self : t) : t :=
  {| mode := mode self; total_questions := total_questions self;
     duration_seconds := v; used_ids := used_ids self;
     history := history self; current_question := current_question self;
     score := score self; start_time := start_time self;
     completed := completed self; rng_seed := rng_seed self;
     rng := rng self |}.

(** [self.used_ids = v] *)
Definition set_used_ids (v : gset string) (self : t) : t :=
  {| mode := mode self; total_questions := total_questions self;
     duration_seconds := duration_seconds self; used_ids := v;
     history := history self; current_question := current_question self;
     score := score self; start_time := start_time self;
     completed := completed self; rng_seed := rng_seed self;
     rng := rng self |}.

(** [self.history = v] *)
Definition set_history (v : list QuestionResult.t) (self : t) : t :=
  {| mode := mode self; total_questions := total_questions self;
     duration_seconds := duration_seconds self;
     used_ids := used_ids self; history := v;
     current_question := current_question self; score := score self;
     start_time := start_time self; completed := completed self;
     rng_seed := rng_seed self; rng := rng self |}.

(** [self.current_question = v] *)
Definition set_current_question (v : option QuizQuestion.t) (self : t) : t :=
  {| mode := mode self; total_questions := total_questions self;
     duration_seconds := duration_seconds self;
     used_ids := used_ids self; history := history self;
     current_question := v; score := score self;
     start_time := start_time self; completed := completed self;
     rng_seed := rng_seed self; rng := rng self |}.

(** [self.score = v] *)
Definition set_score (v : float) (self : t) : t :=
  {| mode := mode self; total_questions := total_questions self;
     duration_seconds := duration_seconds self;
     used_ids := used_ids self; history := history self;
     current_question := current_question self; score := v;
     start_time := start_time self; completed := completed self;
     rng_seed := rng_seed self; rng := rng self |}.

(** [self.start_time = v] *)
Definition set_start_time (v : option float) (self : t) : t :=
  {| mode := mode self; total_questions := total_questions self;
     duration_seconds := duration_seconds self;
     used_ids := used_ids self; history := history self;
     current_question := current_question self; score := score self;
     start_time := v; completed := completed self;
     rng_seed := rng_seed self; rng := rng self |}.

(** [self.completed = v] *)
Definition set_completed (v : bool) (self : t) : t :=
  {| mode := mode self; total_questions := total_questions self;
     duration_seconds := duration_seconds self;
     used_ids := used_ids self; history := history self;
     current_question := current_question self; score := score self;
     start_time := start_time self; completed := v;
     rng_seed := rng_seed self; rng := rng self |}.

(** [self.rng_seed = v] *)
Definition set_rng_seed (v : option Z) (self : t) : t :=
  {| mode := mode self; total_questions := total_questions self;
     duration_seconds := duration_seconds self;
     used_ids := used_ids self; history := history self;
     current_question := current_question self; score := score self;
     start_time := start_time self; completed := completed self;
     rng_seed := v; rng := rng self |}.

(** [self.rng = v] *)
Definition set_rng (v : option Rng) (self : t) : t :=
  {| mode := mode self; total_questions := total_questions self;
     duration_seconds := duration_seconds self;
     used_ids := used_ids self; history := history self;
     current_question := current_question self; score := score self;
     start_time := start_time self; completed := completed self;
     rng_seed := rng_seed self; rng := v |}.
End WithPlatform.
End QuizState.

(** ** core/parser.py *)

Module parser.
Section WithPlatform.
Context `{Platform}.

Definition SPEC_KEYS : list string :=
  [ "make"; "model"; "year"; "msrp"; "front_wheel_size_in";
    "sae_net_hp_rpm"; "displacement"; "engine_type"; "width_in";
    "height_in"; "length_in"; "gas_mileage"; "drivetrain";
    "passenger_capacity"; "passenger_doors"; "body_style" ].

(* includes random suffix ID *)
Definition TOKEN_COUNT : nat := (length SPEC_KEYS + 1)%nat.

(** Parse a dataset filename into a CarImage object; [None] if the
    filename does not match the expected schema.  The debug log lines
    are left out. *)
Definition parse_filename (path : Path) : result (option CarImage.t) :=
  let stem := path_stem path in
  let parts := split "_" stem in
  if (length parts <? TOKEN_COUNT)%nat then Ok None
  else
    let specs_raw := take (length SPEC_KEYS) parts in
    random_id ← list_getitem parts (length SPEC_KEYS);
    let specs : gmap string string :=
      foldl (fun specs '(key, value) => <[key := value]> specs) ∅
            (zip SPEC_KEYS specs_raw) in
    make ← dict_getitem specs "make";
    model ← dict_getitem specs "model";
    year_str ← dict_getitem specs "year";
    match py_int year_str with
    | Raise (ValueError _) => Ok None
    | Raise e => Raise e
    | Ok year =>
        let identifier := stem in
        Ok (Some {| CarImage.id := identifier;
                    CarImage.path := path;
                    CarImage.make := make;
                    CarImage.model := model;
                    CarImage.year := year;
                    CarImage.random_id := random_id;
                    CarImage.specs := specs |})
    end.
End WithPlatform.
End parser.

(** ** core/indexer.py *)

(** What [path.stat()] returns, as far as the package reads it. *)
Module stat_result.
Record t := { st_mtime_ns : Z; st_size : Z }.
End stat_result.

(** The file system as [load_index] sees it. *)
Module FileSystem.
Section WithPlatform.
Context `{Platform}.
Record t := {
  (* path.stat() *)
  stat : Path -> result stat_result.t;
  (* list(data_dir.rglob(pattern)) *)
  rglob : Path -> string -> list Path;
  (* None: the file does not exist; otherwise what opening it and
     json.load give *)
  read_json : Path -> option (result json)
}.

(** [json.dump(payload, path.open("w"))]; what is written is read back
    as the same value. *)
Definition write_json (fs : t) (file : Path) (payload : json) : t :=
  {| stat := stat fs;
     rglob := rglob fs;
     read_json := fun p =>
       if decide (p = file) then Some (Ok payload) else read_json fs p |}.
End WithPlatform.
End FileSystem.

Module DatasetIndex.
Section WithPlatform.
Context `{Platform}.

(** In-memory dataset index with helper lookup structures.
    [ensure_thumbnail] belongs to the image library and is left out. *)
Record t := {
  records : list CarImage.t;
  cache_dir : Path;
  thumb_dir : Path;
  by_make : gmap string (list CarImage.t);
  by_make_model : gmap (string * string) (list CarImage.t)
}.

Definition car_to_json (car : CarImage.t) : json :=
  JDict (list_to_map
    [ ("id", JStr (CarImage.id car));
      ("path", JStr (path_str (CarImage.path car)));
      ("make", JStr (CarImage.make car));
      ("model", JStr (CarImage.model car));
      ("year", JInt (CarImage.year car));
      ("random_id", JStr (CarImage.random_id car));
      ("specs", JDict (JStr <$> CarImage.specs car)) ]).

Definition to_json_serializable (self : t) (digest : string) : json :=
  JDict (list_to_map
    [ ("version", JInt 1);
      ("digest", JStr digest);
      ("records", JList (car_to_json <$> records self)) ]).

(** Return all records for sampling. *)
Definition get_random_pool (self : t) : list CarImage.t := records self.

Definition get_by_make (self : t) (make : string) : list CarImage.t :=
  default [] (by_make self !! make).

Definition get_by_make_model (self : t) (make model : string)
  : list CarImage.t :=
  default [] (by_make_model self !! (make, model)).
End WithPlatform.
End DatasetIndex.

Module indexer.
Section WithPlatform.
Context `{Platform}.

Definition CACHE_FILENAME : string := "index.json".

Definition _iter_image_paths (fs : FileSystem.t) (data_dir : Path)
  : list Path :=
  let patterns := ["*.jpg"; "*.jpeg"; "*.png"] in
  concat ((fun pattern => FileSystem.rglob fs data_dir pattern) <$> patterns).

(** [sorted(paths)] *)
Definition sorted (paths : list Path) : list Path :=
  merge_sort path_le paths.

(** One turn of the loop of [_compute_digest]; [hasher] is the data fed
    to the md5 object so far. *)
Definition digest_step (fs : FileSystem.t) (hasher : result string)
    (path : Path) : result string :=
  data ← hasher;
  match FileSystem.stat fs path with
  | Raise (FileNotFoundError _) => Ok data
  | Raise e => Raise e
  | Ok st =>
      let entry :=
        path_str path +:+ ":" +:+ str_of_int (stat_result.st_mtime_ns st)
          +:+ ":" +:+ str_of_int (stat_result.st_size st) in
      Ok (data +:+ entry)
  end.

Definition _compute_digest (fs : FileSystem.t) (paths : list Path)
  : result string :=
  hasher ← foldl (digest_step fs) (Ok "") (sorted paths);
  Ok (md5_hexdigest hasher).

(** [d[key].append(value)] on a [defaultdict(list)] *)
Definition defaultdict_append `{Countable K} {V}
    (d : gmap K (list V)) (key : K) (value : V) : gmap K (list V) :=
  <[key := default [] (d !! key) ++ [value]]> d.

Definition _build_dataset_index (records : list CarImage.t)
    (cache_dir thumb_dir : Path) : DatasetIndex.t :=
  let '(by_make, by_make_model) :=
    foldl (fun '(by_make, by_make_model) record =>
             (defaultdict_append by_make (CarImage.make record) record,
              defaultdict_append by_make_model
                (CarImage.make record, CarImage.model record) record))
          (∅, ∅) records in
  {| DatasetIndex.records := records;
     DatasetIndex.cache_dir := cache_dir;
     DatasetIndex.thumb_dir := thumb_dir;
     DatasetIndex.by_make := by_make;
     DatasetIndex.by_make_model := by_make_model |}.

(** *** Reading the cached payload *)

(** [payload.get(key)], [None] when the key is absent. *)
Definition json_get (payload : json) (key : string) : result (option json) :=
  match payload with
  | JDict d => Ok (d !! key)
  | _ => Raise AttributeError
  end.

(** [entry[key]] for a string key. *)
Definition json_getitem (entry : json) (key : string) : result json :=
  match entry with
  | JDict d =>
      match d !! key with
      | Some v => Ok v
      | None => Raise (KeyError key)
      end
  | _ => Raise TypeError
  end.

(** [value == n] for an [int] [n]. *)
Definition json_eq_int (value : option json) (n : Z) : bool :=
  match value with
  | Some (JInt z) => z =? n
  | Some (JBool b) => (if b then 1 else 0) =? n
  | Some (JFloat x) => PrimFloat.eqb x (float_of_int n)
  | _ => false
  end.

(** [value == s] for a [str] [s]. *)
Definition json_eq_str (value : option json) (s : string) : bool :=
  match value with
  | Some (JStr s') => bool_decide (s' = s)
  | _ => false
  end.

(** The entries a [for] loop over the value takes: the items of a list,
    the keys of a dictionary, the characters of a string. *)
Definition json_iter (value : json) : result (list json) :=
  match value with
  | JList l => Ok l
  | JDict d => Ok (JStr <$> (map_to_list d).*1)
  | JStr s => Ok ((fun c => JStr (String c "")) <$> list_ascii_of_string s)
  | _ => Raise TypeError
  end.

(** [int(value)] *)
Definition json_int (value : json) : result Z :=
  match value with
  | JInt z => Ok z
  | JBool b => Ok (if b then 1 else 0)
  | JFloat x =>
      match int_of_float x with
      | Some z => Ok z
      | None => Raise OverflowError
      end
  | JStr s => py_int s
  | _ => Raise TypeError
  end.

(** The fields of [CarImage] are declared [str], [Path] and
    [Dict[str, str]]: a cached value of another type does not fit the
    record and is taken as a failure to read the cache. *)
Definition json_str (value : json) : result string :=
  match value with
  | JStr s => Ok s
  | _ => Raise TypeError
  end.

Definition json_specs (value : json) : result (gmap string string) :=
  match value with
  | JDict d =>
      let as_str v := match v with JStr s => Some s | _ => None end in
      if decide (map_Forall (fun _ v => is_Some (as_str v)) d)
      then Ok (omap as_str d)
      else Raise TypeError
  | _ => Raise TypeError
  end.

(** [Path(value)] *)
Definition json_path (value : json) : result Path :=
  match value with
  | JStr s => Ok (Path_of_str s)
  | _ => Raise TypeError
  end.

(** One [CarImage(...)] of the comprehension on the cache-hit path. *)
Definition car_of_entry (entry : json) : result CarImage.t :=
  id ← json_getitem entry "id" ≫= json_str;
  path ← json_getitem entry "path" ≫= json_path;
  make ← json_getitem entry "make" ≫= json_str;
  model ← json_getitem entry "model" ≫= json_str;
  year ← json_getitem entry "year" ≫= json_int;
  random_id ← json_get entry "random_id" ≫=
                (fun v => json_str (default (JStr "") v));
  specs ← json_get entry "specs" ≫=
            (fun v => json_specs (default (JDict ∅) v));
  Ok {| CarImage.id := id;
        CarImage.path := path;
        CarImage.make := make;
        CarImage.model := model;
        CarImage.year := year;
        CarImage.random_id := random_id;
        CarImage.specs := specs |}.

(** The body of the [try] block after [json.load]: [Some records] when
    version and digest match. *)
Definition cached_records (payload : json) (digest : string)
  : result (option (list CarImage.t)) :=
  version ← json_get payload "version";
  if json_eq_int version 1 then
    stored ← json_get payload "digest";
    if json_eq_str stored digest then
      entries ← json_get payload "records" ≫=
                  (fun v => json_iter (default (JList []) v));
      records ← mapM car_of_entry entries;
      Ok (Some records)
    else Ok None
  else Ok None.

(** Load the dataset index from cache, rebuilding if necessary.  The
    result and the file system afterwards; creating the directories,
    logging and the progress callback are left out. *)
Definition load_index (fs : FileSystem.t)
    (data_dir cache_dir thumb_dir : Path) (force_rebuild : bool)
  : result DatasetIndex.t * FileSystem.t :=
  let image_paths := _iter_image_paths fs data_dir in
  match image_paths with
  | [] => (Raise (FileNotFoundError ("No images found in " +:+ path_str data_dir)), fs)
  | _ =>
  match _compute_digest fs image_paths with
  | Raise e => (Raise e, fs)
  | Ok digest =>
      let cache_file := path_join cache_dir CACHE_FILENAME in
      let cached :=
        if negb force_rebuild then
          match FileSystem.read_json fs cache_file with
          | Some (Ok payload) =>
              match cached_records payload digest with
              | Ok (Some (car :: cars)) => Some (car :: cars)
              | _ => None
              end
          | _ => None
          end
        else None in
      match cached with
      | Some records =>
          (Ok (_build_dataset_index records cache_dir thumb_dir), fs)
      | None =>
          match mapM parser.parse_filename image_paths with
          | Raise e => (Raise e, fs)
          | Ok parsed =>
              match omap id parsed with
              | [] => (Raise (RuntimeError "No valid car images found after parsing filenames."), fs)
              | records =>
                  let dataset := _build_dataset_index records cache_dir thumb_dir in
                  let serializable := DatasetIndex.to_json_serializable dataset digest in
                  (Ok dataset,
                   FileSystem.write_json fs (path_join cache_dir CACHE_FILENAME) serializable)
              end
          end
      end
  end
  end.
End WithPlatform.
End indexer.

(** ** core/options.py *)

Module options.
Section WithPlatform.
Context `{Platform}.

Definition format_label (car : CarImage.t) (mode : QuizMode.t) : string :=
  match mode with
  | QuizMode.MAKE => CarImage.make car
  | QuizMode.MAKE_MODEL => CarImage.make car +:+ " " +:+ CarImage.model car
  | QuizMode.MAKE_MODEL_YEAR =>
      CarImage.make car +:+ " " +:+ CarImage.model car +:+ " "
        +:+ str_of_int (CarImage.year car)
  end.

(** The three variables the loops of [generate_choices] update. *)
Record picks := {
  distractors : list CarImage.t;
  seen_ids : gset string;
  seen_labels : gset string
}.

(** [seq[:stop]] *)
Definition slice_to {A} (seq : list A) (stop : Z) : list A :=
  if 0 <=? stop then take (Z.to_nat stop) seq
  else take (length seq - Z.to_nat (- stop)) seq.

(** The inner loop [for car in pool_list]. *)
Fixpoint take_from_pool (mode : QuizMode.t) (total_choices : Z)
    (pool_list : list CarImage.t) (acc : picks) : picks :=
  match pool_list with
  | [] => acc
  | car :: rest =>
      if Z.of_nat (length (distractors acc)) >=? total_choices - 1 then acc
      else
        let label := format_label car mode in
        if decide (label ∈ seen_labels acc) then
          take_from_pool mode total_choices rest acc
        else
          take_from_pool mode total_choices rest
            {| distractors := distractors acc ++ [car];
               seen_ids := seen_ids acc ∪ {[CarImage.id car]};
               seen_labels := seen_labels acc ∪ {[label]} |}
  end.

(** The outer loop [for pool in pools]. *)
Fixpoint visit_pools (mode : QuizMode.t) (total_choices : Z)
    (pools : list (list CarImage.t)) (acc : picks) (rng : Rng)
  : picks * Rng :=
  match pools with
  | [] => (acc, rng)
  | pool :: rest =>
      let '(pool_list, rng) := shuffle rng pool in
      let acc := take_from_pool mode total_choices pool_list acc in
      if Z.of_nat (length (distractors acc)) >=? total_choices - 1
      then (acc, rng)
      else visit_pools mode total_choices rest acc rng
  end.

(** The loop [for car in remaining] of the final pass. *)
Fixpoint fill_remaining (total_choices : Z) (remaining : list CarImage.t)
    (acc : picks) : picks :=
  match remaining with
  | [] => acc
  | car :: rest =>
      if Z.of_nat (length (distractors acc)) >=? total_choices - 1 then acc
      else
        fill_remaining total_choices rest
          {| distractors := distractors acc ++ [car];
             seen_ids := seen_ids acc ∪ {[CarImage.id car]};
             seen_labels := seen_labels acc |}
  end.

(** The candidate pools, built while [seen_ids] is [{correct.id}]. *)
Definition candidate_pools (correct : CarImage.t) (index : DatasetIndex.t)
    (mode : QuizMode.t) (seen_ids : gset string)
  : list (list CarImage.t) :=
  let tiers :=
    match mode with
    | QuizMode.MAKE_MODEL_YEAR =>
        let same_model :=
          filter (fun car => (CarImage.id car ∉ seen_ids)
                             ∧ CarImage.year car ≠ CarImage.year correct)
            (DatasetIndex.get_by_make_model index
               (CarImage.make correct) (CarImage.model correct)) in
        let same_make :=
          filter (fun car => (CarImage.id car ∉ seen_ids)
                             ∧ (CarImage.model car ≠ CarImage.model correct
                                ∨ CarImage.year car ≠ CarImage.year correct))
            (DatasetIndex.get_by_make index (CarImage.make correct)) in
        [same_model; same_make]
    | QuizMode.MAKE_MODEL =>
        let same_model :=
          filter (fun car => (CarImage.id car ∉ seen_ids)
                             ∧ CarImage.year car ≠ CarImage.year correct)
            (DatasetIndex.get_by_make_model index
               (CarImage.make correct) (CarImage.model correct)) in
        let same_make :=
          filter (fun car => (CarImage.id car ∉ seen_ids)
                             ∧ CarImage.model car ≠ CarImage.model correct)
            (DatasetIndex.get_by_make index (CarImage.make correct)) in
        [same_model; same_make]
    | QuizMode.MAKE =>
        let other_makes :=
          filter (fun car => (CarImage.id car ∉ seen_ids)
                             ∧ CarImage.make car ≠ CarImage.make correct)
            (DatasetIndex.get_random_pool index) in
        [other_makes]
    end in
  let all_pool :=
    filter (fun car => CarImage.id car ∉ seen_ids)
      (DatasetIndex.get_random_pool index) in
  tiers ++ [all_pool].

Definition to_choice (mode : QuizMode.t) (car : CarImage.t)
  : AnswerChoice.t :=
  {| AnswerChoice.id := CarImage.id car;
     AnswerChoice.label := format_label car mode;
     AnswerChoice.car := car |}.

(** Create a list of answer choices including the correct answer.
    [rng] is the caller's generator, if any; [unseeded] is the generator
    that [random.Random()] makes otherwise.  Returns the generator that
    was used as it is afterwards. *)
Definition generate_choices (correct : CarImage.t) (index : DatasetIndex.t)
    (mode : QuizMode.t) (total_choices : Z) (rng : option Rng)
    (unseeded : Rng) : result (list AnswerChoice.t) * Rng :=
  let rng := default unseeded rng in
  if total_choices <? 2 then
    (Raise (ValueError "total_choices must be at least 2."), rng)
  else
    let start :=
      {| distractors := [];
         seen_ids := {[CarImage.id correct]};
         seen_labels := {[format_label correct mode]} |} in
    let pools := candidate_pools correct index mode (seen_ids start) in
    let '(acc, rng) := visit_pools mode total_choices pools start rng in
    (* Fill remaining slots even if labels collide to guarantee total
       choices. *)
    let '(acc, rng) :=
      if Z.of_nat (length (distractors acc)) <? total_choices - 1 then
        let remaining :=
          filter (fun car => CarImage.id car ∉ seen_ids acc)
            (DatasetIndex.get_random_pool index) in
        let '(remaining, rng) := shuffle rng remaining in
        (fill_remaining total_choices remaining acc, rng)
      else (acc, rng) in
    let choices := correct :: slice_to (distractors acc) (total_choices - 1) in
    let '(choices, rng) := shuffle rng choices in
    (Ok (to_choice mode <$> choices), rng).
End WithPlatform.
End options.

(** ** core/engine.py *)

Module engine.
Section WithPlatform.
Context `{Platform}.

Definition DEFAULT_TOTAL_QUESTIONS : Z := 10.
Definition DEFAULT_DURATION_SECONDS : Z := 10 * 60.
Definition DEFAULT_CHOICE_COUNT : Z := 10.

(** [now] is what [time.time()] returns when it is called. *)
Definition is_time_up (state : QuizState.t) (now : float) : bool :=
  match QuizState.start_time state with
  | None => false
  | Some start_time =>
      PrimFloat.leb (float_of_int (QuizState.duration_seconds state))
                    (now - start_time)%float
  end.

(** [now_ns] is what [time.time_ns()] returns. *)
Definition reset_quiz_state (state : QuizState.t) (mode : QuizMode.t)
    (duration_seconds : Z) (seed : option Z) (now : float) (now_ns : Z)
  : QuizState.t :=
  let state := QuizState.set_mode mode state in
  let state := QuizState.set_duration_seconds duration_seconds state in
  let state := QuizState.set_used_ids ∅ state in
  let state := QuizState.set_history [] state in
  let state := QuizState.set_current_question None state in
  let state := QuizState.set_score 0%float state in
  let state := QuizState.set_completed false state in
  let state := QuizState.set_start_time (Some now) state in
  let seed := default now_ns seed in
  let state := QuizState.set_rng_seed (Some seed) state in
  QuizState.set_rng (Some (Random seed)) state.

Definition create_quiz_state (mode : QuizMode.t) (total_questions : Z)
    (duration_seconds : Z) (seed : option Z) (now : float) (now_ns : Z)
  : QuizState.t :=
  let state :=
    {| QuizState.mode := mode;
       QuizState.total_questions := total_questions;
       QuizState.duration_seconds := duration_seconds;
       QuizState.used_ids := ∅;
       QuizState.history := [];
       QuizState.current_question := None;
       QuizState.score := 0%float;
       QuizState.start_time := None;
       QuizState.completed := false;
       QuizState.rng_seed := None;
       QuizState.rng := None |} in
  reset_quiz_state state mode duration_seconds seed now now_ns.

Definition remaining_questions (state : QuizState.t) : Z :=
  Z.max 0 (QuizState.total_questions state
           - Z.of_nat (length (QuizState.history state))).

(** The loop [for _ in range(n)] of [_select_car]: [Some candidate] when
    it returns from inside the loop. *)
Fixpoint random_tries (n : nat) (pool : list CarImage.t)
    (used_ids : gset string) (rng : Rng) : result (option CarImage.t) * Rng :=
  match n with
  | O => (Ok None, rng)
  | S n' =>
      let '(picked, rng) := choice rng pool in
      match picked with
      | Raise e => (Raise e, rng)
      | Ok candidate =>
          if decide (CarImage.id candidate ∉ used_ids)
          then (Ok (Some candidate), rng)
          else random_tries n' pool used_ids rng
      end
  end.

(** The loop [for candidate in pool] of [_select_car]. *)
Fixpoint first_unused (pool : list CarImage.t) (used_ids : gset string)
  : option CarImage.t :=
  match pool with
  | [] => None
  | candidate :: rest =>
      if decide (CarImage.id candidate ∉ used_ids) then Some candidate
      else first_unused rest used_ids
  end.

(** Returns the selected car, the state and the generator afterwards;
    when [rng] is the generator of [state], the caller stores it back. *)
Definition _select_car (index : DatasetIndex.t) (state : QuizState.t)
    (rng : Rng) : result CarImage.t * QuizState.t * Rng :=
  let pool := DatasetIndex.get_random_pool index in
  match pool with
  | [] => (Raise (RuntimeError "Dataset index is empty."), state, rng)
  | _ =>
      let available :=
        Z.of_nat (length pool) - Z.of_nat (size (QuizState.used_ids state)) in
      let state :=
        if available <=? 0 then
          (* Reset used ids but keep history to avoid crash; future
             enhancement could allow repeats. *)
          QuizState.set_used_ids ∅ state
        else state in
      match random_tries 256 pool (QuizState.used_ids state) rng with
      | (Raise e, rng) => (Raise e, state, rng)
      | (Ok (Some candidate), rng) => (Ok candidate, state, rng)
      | (Ok None, rng) =>
          match first_unused pool (QuizState.used_ids state) with
          | Some candidate => (Ok candidate, state, rng)
          | None =>
              (Raise (RuntimeError "Unable to select a new car for the question."),
               state, rng)
          end
      end
  end.

Fixpoint find_choice_in (choices : list AnswerChoice.t) (choice_id : string)
  : option AnswerChoice.t :=
  match choices with
  | [] => None
  | choice :: rest =>
      if decide (AnswerChoice.id choice = choice_id) then Some choice
      else find_choice_in rest choice_id
  end.

Definition _find_choice (question : QuizQuestion.t) (choice_id : string)
  : option AnswerChoice.t :=
  find_choice_in (QuizQuestion.choices question) choice_id.

Definition _compute_score (correct guess : CarImage.t) (mode : QuizMode.t)
  : ScoreDetail.t :=
  let make_correct :=
    bool_decide (CarImage.make guess = CarImage.make correct) in
  let model_correct :=
    make_correct && bool_decide (CarImage.model guess = CarImage.model correct) in
  let year_correct :=
    model_correct && bool_decide (CarImage.year guess = CarImage.year correct) in
  let points : float :=
    match mode with
    | QuizMode.MAKE => if make_correct then 1.0%float else 0.0%float
    | QuizMode.MAKE_MODEL =>
        let points := 0.0%float in
        if make_correct then
          let points := (points + 0.5)%float in
          if model_correct then (points + 0.5)%float else points
        else points
    | QuizMode.MAKE_MODEL_YEAR =>
        let points := 0.0%float in
        if make_correct then
          let points := (points + 0.3)%float in
          if model_correct then
            let points := (points + 0.4)%float in
            if year_correct then (points + 0.3)%float else points
          else points
        else points
    end in
  {| ScoreDetail.points := points;
     ScoreDetail.max_points := 1.0%float;
     ScoreDetail.make_correct := make_correct;
     ScoreDetail.model_correct := model_correct;
     ScoreDetail.year_correct := year_correct;
     ScoreDetail.mode := mode |}.

(** [now] is the clock reading of the call of [is_time_up];
    [unseeded] is the generator [random.Random(None)] makes. *)
Definition ensure_question (state : QuizState.t) (index : DatasetIndex.t)
    (now : float) (unseeded : Rng)
  : result (option QuizQuestion.t) * QuizState.t :=
  if QuizState.completed state then (Ok None, state)
  else if is_time_up state now then
    (Ok None, QuizState.set_completed true state)
  else
    match QuizState.current_question state with
    | Some question => (Ok (Some question), state)
    | None =>
        if Z.of_nat (length (QuizState.history state))
             >=? QuizState.total_questions state
        then (Ok None, QuizState.set_completed true state)
        else
          let rng :=
            match QuizState.rng state with
            | Some rng => rng
            | None =>
                match QuizState.rng_seed state with
                | Some seed => Random seed
                | None => unseeded
                end
            end in
          let state := QuizState.set_rng (Some rng) state in
          let '(selected, state, rng) := _select_car index state rng in
          let state := QuizState.set_rng (Some rng) state in
          match selected with
          | Raise e => (Raise e, state)
          | Ok car =>
              let '(generated, rng) :=
                options.generate_choices car index (QuizState.mode state)
                  DEFAULT_CHOICE_COUNT (Some rng) unseeded in
              let state := QuizState.set_rng (Some rng) state in
              match generated with
              | Raise e => (Raise e, state)
              | Ok choices =>
                  let question_number :=
                    Z.of_nat (length (QuizState.history state)) + 1 in
                  let question :=
                    {| QuizQuestion.number := question_number;
                       QuizQuestion.car := car;
                       QuizQuestion.choices := choices |} in
                  let state :=
                    QuizState.set_current_question (Some question) state in
                  let state :=
                    QuizState.set_used_ids
                      (QuizState.used_ids state ∪ {[CarImage.id car]}) state in
                  (Ok (Some question), state)
              end
          end
    end.

(** [now] is the clock reading of the call of [is_time_up]. *)
Definition submit_answer (state : QuizState.t) (choice_id : string)
    (now : float) : result ScoreDetail.t * QuizState.t :=
  match QuizState.current_question state with
  | None => (Raise (RuntimeError "No active question to submit."), state)
  | Some current_question =>
      match _find_choice current_question choice_id with
      | None =>
          (Raise (ValueError "Selected choice not found in current question."),
           state)
      | Some selected =>
          let correct_car := QuizQuestion.car current_question in
          let score_detail :=
            _compute_score correct_car (AnswerChoice.car selected)
              (QuizState.mode state) in
          let state :=
            QuizState.set_score
              (QuizState.score state + ScoreDetail.points score_detail)%float
              state in
          let result :=
            {| QuestionResult.question := current_question;
               QuestionResult.selected_choice := selected;
               QuestionResult.score := score_detail |} in
          let state :=
            QuizState.set_history (QuizState.history state ++ [result]) state in
          let state := QuizState.set_current_question None state in
          let state :=
            if (Z.of_nat (length (QuizState.history state))
                  >=? QuizState.total_questions state)
               || is_time_up state now
            then QuizState.set_completed true state
            else state in
          (Ok score_detail, state)
      end
  end.
End WithPlatform.
End engine.

(** ** A platform to run the model on

    POSIX path strings ordered as strings, decimal literals for [int(s)], a
    linear congruential generator, and a digest that leaves its input as it
    is.  It serves to evaluate the definitions above on examples. *)

Module reference.
Definition stem (p : string) : string :=
  let name := List.last (split "/" p) "" in
  match reverse (split "." name) with
  | suffix :: (_ :: _) as rest =>
      let prefix := String.concat "." (reverse rest) in
      if bool_decide (prefix ≠ "" ∧ suffix ≠ "") then prefix else name
  | _ => name
  end.

Definition join (dir name : string) : string := dir +:+ "/" +:+ name.

Definition le (p q : string) : Prop := String.leb p q = true.

Definition parse_int (s : string) : option Z :=
  Z.of_int <$> NilZero.int_of_string s.

Definition lcg (g : Z) : Z := (g * 1103515245 + 12345) mod 2147483648.

Definition lcg_below (g : Z) (n : nat) : nat * Z :=
  (Z.to_nat (lcg g mod Z.of_nat n), lcg g).

Lemma compare_trans c s1 s2 s3 :
  String.compare s1 s2 = c -> String.compare s2 s3 = c ->
  String.compare s1 s3 = c.
Proof.
  revert c s2 s3.
  induction s1 as [|a s1 IH]; intros c [|b s2] [|d s3]; simpl; try congruence.
  unfold Ascii.compare.
  destruct (N.compare_spec (N_of_ascii a) (N_of_ascii b)) as [E1|L1|G1];
    destruct (N.compare_spec (N_of_ascii b) (N_of_ascii d)) as [E2|L2|G2];
    intros H1 H2; try congruence.
  - rewrite E1, E2, N.compare_refl. eauto.
  - subst c. rewrite E1. by rewrite (proj2 (N.compare_lt_iff _ _) L2).
  - subst c. rewrite E1. by rewrite (proj2 (N.compare_gt_iff _ _) G2).
  - subst c. rewrite <- E2. by rewrite (proj2 (N.compare_lt_iff _ _) L1).
  - subst c. assert (L : (N_of_ascii a < N_of_ascii d)%N) by lia.
    by rewrite (proj2 (N.compare_lt_iff _ _) L).
  - subst c. rewrite <- E2. by rewrite (proj2 (N.compare_gt_iff _ _) G1).
  - subst c. assert (L : (N_of_ascii d < N_of_ascii a)%N) by lia.
    by rewrite (proj2 (N.compare_gt_iff _ _) L).
Qed.

Lemma le_trans s1 s2 s3 : le s1 s2 -> le s2 s3 -> le s1 s3.
Proof.
  unfold le, String.leb.
  destruct (String.compare s1 s2) eqn:E1; [| |done];
    destruct (String.compare s2 s3) eqn:E2; try done; intros _ _.
  - by rewrite (compare_trans Eq s1 s2 s3).
  - apply String.compare_eq_iff in E1. subst. by rewrite E2.
  - apply String.compare_eq_iff in E2. subst. by rewrite E1.
  - by rewrite (compare_trans Lt s1 s2 s3).
Qed.

Lemma le_partial_order : PartialOrder le.
Proof.
  split; [split|].
  - intros s. destruct (String.leb_total s s); done.
  - intros s1 s2 s3. apply le_trans.
  - intros s1 s2. apply String.leb_antisym.
Qed.

Lemma le_total : Total le.
Proof. intros s1 s2. apply String.leb_total. Qed.

Lemma lcg_below_lt g n : (0 < n)%nat -> ((lcg_below g n).1 < n)%nat.
Proof.
  intros Hn. unfold lcg_below. simpl.
  pose proof (Z.mod_pos_bound (lcg g) (Z.of_nat n)). lia.
Qed.

#[export] Instance platform : Platform := {|
  Path := string;
  path_str := fun p => p;
  Path_of_str := fun s => s;
  path_stem := stem;
  path_join := join;
  path_le := le;
  path_le_dec := fun p q => decide (String.leb p q = true);
  path_le_po := le_partial_order;
  path_le_total := le_total;
  Path_of_str_str := fun p => eq_refl;
  int_of_str := parse_int;
  md5_hexdigest := fun data => data;
  Rng := Z;
  Random := fun seed => seed;
  randbelow := lcg_below;
  randbelow_lt := lcg_below_lt
|}.
End reference.

(** ** Sample data on the reference platform *)

Module examples.
Import reference.

Definition car (id make model : string) (year : Z) : CarImage.t :=
  {| CarImage.id := id;
     CarImage.path := "data/" +:+ id +:+ ".jpg";
     CarImage.make := make;
     CarImage.model := model;
     CarImage.year := year;
     CarImage.random_id := "";
     CarImage.specs := {["make" := make]} |}.

Definition civic_2015 : CarImage.t := car "civic15" "Honda" "Civic" 2015.
Definition civic_2016 : CarImage.t := car "civic16" "Honda" "Civic" 2016.
Definition accord_2015 : CarImage.t := car "accord15" "Honda" "Accord" 2015.
Definition focus_2012 : CarImage.t := car "focus12" "Ford" "Focus" 2012.

Definition four_cars : DatasetIndex.t :=
  indexer._build_dataset_index
    [civic_2015; civic_2016; accord_2015; focus_2012] "cache" "thumbs".

(** An index with one record. *)
Definition one_car : DatasetIndex.t :=
  indexer._build_dataset_index [civic_2015] "cache" "thumbs".

(** An index in which two records of different makes have the same id. *)
Definition shared_id : DatasetIndex.t :=
  indexer._build_dataset_index
    [civic_2015; car "focus12" "Ford" "Focus" 2012;
     car "focus12" "Toyota" "Corolla" 2014] "cache" "thumbs".

(** An index with two files of the same stem, hence two records of the
    same id. *)
Definition twins : DatasetIndex.t :=
  indexer._build_dataset_index
    [car "civic15" "Honda" "Civic" 2015; car "civic15" "Honda" "Civic" 2015]
    "cache" "thumbs".

Definition fresh_state : QuizState.t :=
  engine.create_quiz_state QuizMode.MAKE_MODEL_YEAR 10 600 (Some 7) 0%float 0.

(** A fresh quiz in which the id civic15 has been used. *)
Definition civic_used : QuizState.t :=
  QuizState.set_used_ids {["civic15"]} fresh_state.

Definition every_file (p : string) : result stat_result.t :=
  Ok {| stat_result.st_mtime_ns := 1700000000000000000;
        stat_result.st_size := 4096 |}.

Definition images (dir pattern : string) : list string :=
  if bool_decide (pattern = "*.jpg")
  then ["data/civic16.jpg"; "data/civic15.jpg"] else [].

(** A data directory with two images and no cache file. *)
Definition no_cache : FileSystem.t :=
  {| FileSystem.stat := every_file;
     FileSystem.rglob := images;
     FileSystem.read_json := fun _ => None |}.

Definition digest : string :=
  match indexer._compute_digest no_cache
          (indexer._iter_image_paths no_cache "data") with
  | Ok digest => digest
  | Raise _ => ""
  end.

(** The same directory after the snapshot of [four_cars] was written. *)
Definition with_cache : FileSystem.t :=
  FileSystem.write_json no_cache (join "cache" indexer.CACHE_FILENAME)
    (DatasetIndex.to_json_serializable four_cars digest).
End examples.

(** ** Sample files on the reference platform *)

Module showroom.
Import reference.

Definition civic_file : string :=
  "data/Honda_Civic_2015_18640_16_158_2_4_70_56_182_31_FWD_5_4_sedan_k3J.jpg".

Definition focus_file : string :=
  "data/Ford_Focus_2012_16500_15_160_2_4_72_58_178_28_FWD_5_4_hatch_Qx9.jpg".

(** A file whose name is not of the dataset's schema. *)
Definition notes_file : string := "data/readme_first.jpg".

Definition photos (dir pattern : string) : list string :=
  if bool_decide (pattern = "*.jpg")
  then [focus_file; notes_file; civic_file] else [].

(** A data directory with three images and no cache file. *)
Definition disk : FileSystem.t :=
  {| FileSystem.stat := examples.every_file;
     FileSystem.rglob := photos;
     FileSystem.read_json := fun _ => None |}.

(** A fresh quiz with a first question on the Civic of 2015. *)
Definition first_question : QuizQuestion.t :=
  {| QuizQuestion.number := 1;
     QuizQuestion.car := examples.civic_2015;
     QuizQuestion.choices :=
       options.to_choice QuizMode.MAKE_MODEL_YEAR
         <$> [examples.focus_2012; examples.civic_2015] |}.

Definition asked : QuizState.t :=
  QuizState.set_current_question (Some first_question) examples.fresh_state.
End showroom.

(** ** Vocabulary of the properties *)

(** The group a key gets from a record list: the records with that key, in
    the order of the list; no group when there is none. *)
Definition group_of `{Platform} {K} `{EqDecision K} (key_of : CarImage.t -> K)
    (key : K) (records : list CarImage.t) : option (list CarImage.t) :=
  match filter (fun record => key_of record = key) records with
  | [] => None
  | group => Some group
  end.

(** The groups of the index hold records of the index only. *)
Definition groups_within_records `{Platform} (index : DatasetIndex.t) : Prop :=
  (forall make car,
     car ∈ DatasetIndex.get_by_make index make ->
     car ∈ DatasetIndex.records index)
  /\ (forall make model car,
        car ∈ DatasetIndex.get_by_make_model index make model ->
        car ∈ DatasetIndex.records index).

(** The records of the index other than the correct one, by id. *)
Definition other_records `{Platform} (correct : CarImage.t)
    (index : DatasetIndex.t) : list CarImage.t :=
  filter (fun car => CarImage.id car <> CarImage.id correct)
         (DatasetIndex.records index).

(** The number of occurrences of a character in a string. *)
Fixpoint count_char (c : ascii) (s : string) : nat :=
  match s with
  | EmptyString => O
  | String c' rest => ((if Ascii.eqb c' c then 1 else 0) + count_char c rest)%nat
  end.

(** The [specs] dictionary that the loop over [zip(SPEC_KEYS, specs_raw)]
    builds. *)
Definition specs_of_tokens (specs_raw : list string) : gmap string string :=
  foldl (fun specs '(key, value) => <[key := value]> specs) ∅
        (zip parser.SPEC_KEYS specs_raw).

(** The file is gone when [path.stat()] is called. *)
Definition vanished `{Platform} (fs : FileSystem.t) (path : Path) : bool :=
  match FileSystem.stat fs path with
  | Raise (FileNotFoundError _) => true
  | _ => false
  end.

(** What [parse_filename] makes of a path, a raised exception counting as a
    rejection. *)
Definition parse_outcome `{Platform} (path : Path) : option CarImage.t :=
  match parser.parse_filename path with
  | Ok outcome => outcome
  | Raise _ => None
  end.

(** The records of the paths whose names parse, in the order of the paths. *)
Definition parsed_records `{Platform} (paths : list Path) : list CarImage.t :=
  omap parse_outcome paths.

(** The records that [load_index] takes from the cache file, if it takes
    any. *)
Definition cache_hit `{Platform} (fs : FileSystem.t) (cache_dir : Path)
    (digest : string) : option (list CarImage.t) :=
  match FileSystem.read_json fs (path_join cache_dir indexer.CACHE_FILENAME) with
  | Some (Ok payload) =>
      match indexer.cached_records payload digest with
      | Ok (Some (car :: cars)) => Some (car :: cars)
      | _ => None
      end
  | _ => None
  end.

(** Where the distractors of [generate_choices] can come from. *)
Definition candidate `{Platform} (correct : CarImage.t) (index : DatasetIndex.t)
    (car : CarImage.t) : Prop :=
  CarImage.id car <> CarImage.id correct
  /\ (car ∈ DatasetIndex.records index
      \/ car ∈ DatasetIndex.get_by_make index (CarImage.make correct)
      \/ car ∈ DatasetIndex.get_by_make_model index
                 (CarImage.make correct) (CarImage.model correct)).

(** The flag that the mode asks for. *)
Definition required_flag (detail : ScoreDetail.t) : bool :=
  match ScoreDetail.mode detail with
  | QuizMode.MAKE => ScoreDetail.make_correct detail
  | QuizMode.MAKE_MODEL => ScoreDetail.model_correct detail
  | QuizMode.MAKE_MODEL_YEAR => ScoreDetail.year_correct detail
  end.

(** * Properties *)

(** Case analysis on the pairs that a [let '(x, y) := e in _] of the goal
    takes apart. *)
Ltac destruct_pairs :=
  repeat match goal with
         | |- context [match ?e with pair _ _ => _ end] => destruct e
         end.

(** ** Scoring *)

Section Scoring.
Context `{Platform}.
Implicit Types correct guess : CarImage.t.

(** C2. For every pair of records and every mode the flags of the returned
    ScoreDetail are hierarchical, year_correct implies model_correct and
    model_correct implies make_correct, and max_points is 1.0. *)
Theorem compute_score_hierarchy correct guess (mode : QuizMode.t) :
  let detail := engine._compute_score correct guess mode in
  (ScoreDetail.year_correct detail = true ->
     ScoreDetail.model_correct detail = true)
  /\ (ScoreDetail.model_correct detail = true ->
        ScoreDetail.make_correct detail = true)
  /\ ScoreDetail.max_points detail = 1.0%float.
Proof.
  unfold engine._compute_score; cbn.
  repeat split; intros Hflag; apply andb_prop in Hflag; tauto.
Qed.

(** C3. In mode make+model+year: a guess with the correct make and model
    and another year scores 0.7 with flags true, true, false; a guess with
    the correct make and another model scores 0.3; a guess with the correct
    make, model and year scores 1.0. *)
Theorem compute_score_make_model_year correct guess :
  let detail := engine._compute_score correct guess QuizMode.MAKE_MODEL_YEAR in
  CarImage.make guess = CarImage.make correct ->
  (CarImage.model guess = CarImage.model correct ->
   CarImage.year guess <> CarImage.year correct ->
     ScoreDetail.points detail = 0.7%float
     /\ ScoreDetail.make_correct detail = true
     /\ ScoreDetail.model_correct detail = true
     /\ ScoreDetail.year_correct detail = false)
  /\ (CarImage.model guess <> CarImage.model correct ->
        ScoreDetail.points detail = 0.3%float
        /\ ScoreDetail.make_correct detail = true
        /\ ScoreDetail.model_correct detail = false
        /\ ScoreDetail.year_correct detail = false)
  /\ (CarImage.model guess = CarImage.model correct ->
      CarImage.year guess = CarImage.year correct ->
        ScoreDetail.points detail = 1.0%float
        /\ ScoreDetail.make_correct detail = true
        /\ ScoreDetail.model_correct detail = true
        /\ ScoreDetail.year_correct detail = true).
Proof.
  intros detail Hmake. subst detail. unfold engine._compute_score; cbn.
  rewrite (bool_decide_eq_true_2 _ Hmake); cbn.
  split; [|split].
  - intros Hmodel Hyear.
    rewrite (bool_decide_eq_true_2 _ Hmodel), (bool_decide_eq_false_2 _ Hyear).
    cbn. repeat split; reflexivity.
  - intros Hmodel. rewrite (bool_decide_eq_false_2 _ Hmodel).
    cbn. repeat split; reflexivity.
  - intros Hmodel Hyear.
    rewrite (bool_decide_eq_true_2 _ Hmodel), (bool_decide_eq_true_2 _ Hyear).
    cbn. repeat split; reflexivity.
Qed.
End Scoring.

(** ** Errors of [generate_choices] and [submit_answer] *)

Section Errors.
Context `{Platform}.

(** C8. generate_choices raises its ValueError (the specification's
    InvalidChoiceCount) if and only if total_choices < 2, and raises
    nothing else: for total_choices >= 2 it returns a list of choices. *)
Theorem generate_choices_error (correct : CarImage.t)
    (index : DatasetIndex.t) (mode : QuizMode.t) (total_choices : Z)
    (rng : option Rng) (unseeded : Rng) :
  let outcome :=
    (options.generate_choices correct index mode total_choices rng unseeded).1 in
  (outcome = Raise (ValueError "total_choices must be at least 2.")
     <-> total_choices < 2)
  /\ ((exists e, outcome = Raise e) <-> total_choices < 2)
  /\ (2 <= total_choices <-> exists choices, outcome = Ok choices).
Proof.
  unfold options.generate_choices.
  destruct (Z.ltb_spec total_choices 2) as [Hlt|Hge]; cbn.
  - repeat split; intros; try done; try lia; eauto.
    destruct H0 as [choices Hchoices]. discriminate.
  - destruct (options.visit_pools _ _ _ _ _) as [acc g].
    destruct (Z.of_nat _ <? _); destruct_pairs; cbn;
      (repeat split; intros; try done; try lia; eauto;
       match goal with Hex : exists _, _ |- _ => destruct Hex; discriminate end).
Qed.

(** C10. When the state has no active question, or the submitted choice_id
    is the id of none of the choices of the current question, submit_answer
    raises (RuntimeError, respectively ValueError) and the quiz state
    after the call is the state before it, in every field. *)
Theorem submit_answer_error_keeps_state (state : QuizState.t)
    (choice_id : string) (now : float) :
  (QuizState.current_question state = None
     -> engine.submit_answer state choice_id now
        = (Raise (RuntimeError "No active question to submit."), state))
  /\ (forall question,
        QuizState.current_question state = Some question ->
        Forall (fun choice => AnswerChoice.id choice <> choice_id)
               (QuizQuestion.choices question) ->
        engine.submit_answer state choice_id now
        = (Raise (ValueError "Selected choice not found in current question."),
           state)).
Proof.
  unfold engine.submit_answer. split.
  - intros ->. reflexivity.
  - intros question -> Hnone.
    assert (engine._find_choice question choice_id = None) as ->; [|done].
    unfold engine._find_choice.
    induction Hnone as [|choice rest Hne _ IH]; cbn; [done|].
    by rewrite decide_False.
Qed.
End Errors.

(** ** The grouping indexes *)

Section Grouping.
Context `{Platform}.
Implicit Types (records : list CarImage.t) (record : CarImage.t).

Lemma defaultdict_append_group {K} `{Countable K} (key_of : CarImage.t -> K)
    (d : gmap K (list CarImage.t)) records record :
  (forall key, d !! key = group_of key_of key records) ->
  forall key,
    indexer.defaultdict_append d (key_of record) record !! key
    = group_of key_of key (records ++ [record]).
Proof.
  intros Hd key. unfold indexer.defaultdict_append, group_of.
  rewrite filter_app, filter_cons, filter_nil.
  destruct (decide (key_of record = key)) as [<-|Hne].
  - rewrite lookup_insert_eq, Hd. unfold group_of.
    destruct (filter _ records); reflexivity.
  - rewrite lookup_insert_ne, Hd, app_nil_r by done. reflexivity.
Qed.

Lemma build_dataset_index_groups records cache_dir thumb_dir :
  let index := indexer._build_dataset_index records cache_dir thumb_dir in
  (forall make,
     DatasetIndex.by_make index !! make
     = group_of CarImage.make make records)
  /\ (forall key,
        DatasetIndex.by_make_model index !! key
        = group_of (fun record => (CarImage.make record, CarImage.model record))
                   key records).
Proof.
  unfold indexer._build_dataset_index.
  induction records as [|record records IH] using rev_ind.
  - cbn. split; intros; apply lookup_empty.
  - rewrite foldl_snoc.
    destruct (foldl _ _ records) as [by_make by_make_model].
    cbn in *. destruct IH as [IHmake IHmodel]. split.
    + by apply defaultdict_append_group.
    + by apply (defaultdict_append_group
                  (fun record => (CarImage.make record, CarImage.model record))).
Qed.

(** C7. In the index built from a record sequence, the group of a make in
    by_make is the subsequence of the records with that make, and the group
    of a (make, model) pair in by_make_model is the subsequence of the
    records with that make and model, both in the order of the sequence; a
    key without such a record has no group.  So a record is in the group
    of its own make and of its own pair, once for each of its occurrences,
    and in no other group. *)
Theorem build_dataset_index_grouping records cache_dir thumb_dir :
  let index := indexer._build_dataset_index records cache_dir thumb_dir in
  DatasetIndex.records index = records
  /\ (forall make group,
        DatasetIndex.by_make index !! make = Some group
        <-> group <> []
            /\ group = filter (fun record => CarImage.make record = make) records)
  /\ (forall make model group,
        DatasetIndex.by_make_model index !! (make, model) = Some group
        <-> group <> []
            /\ group = filter (fun record => CarImage.make record = make
                                             /\ CarImage.model record = model)
                              records)
  /\ (forall record,
        record ∈ records ->
        (exists group,
           DatasetIndex.by_make index !! CarImage.make record = Some group
           /\ record ∈ group)
        /\ (exists group,
              DatasetIndex.by_make_model index
                !! (CarImage.make record, CarImage.model record) = Some group
              /\ record ∈ group))
  /\ (forall make group record,
        DatasetIndex.by_make index !! make = Some group ->
        record ∈ group -> CarImage.make record = make /\ record ∈ records)
  /\ (forall make model group record,
        DatasetIndex.by_make_model index !! (make, model) = Some group ->
        record ∈ group ->
        CarImage.make record = make /\ CarImage.model record = model
        /\ record ∈ records).
Proof.
  intros index.
  destruct (build_dataset_index_groups records cache_dir thumb_dir)
    as [Hmake Hmodel].
  fold index in Hmake, Hmodel.
  assert (Hpair : forall make model,
            filter (fun record =>
                      (CarImage.make record, CarImage.model record) = (make, model))
                   records
            = filter (fun record => CarImage.make record = make
                                    /\ CarImage.model record = model) records).
  { intros make model. apply list_filter_iff. intros record.
    split; [intros [= -> ->]; done | intros [-> ->]; done]. }
  assert (Hgroup : forall {K} `{EqDecision K} (key_of : CarImage.t -> K) key group,
            group_of key_of key records = Some group
            <-> group <> []
                /\ group = filter (fun record => key_of record = key) records).
  { intros K HK key_of key group. unfold group_of.
    destruct (filter _ records) as [|record group'] eqn:Hfilter.
    - split; [done | intros [Hne ->]; done].
    - split; [intros [= <-]; done | intros [_ ->]; done]. }
  split.
  { unfold index, indexer._build_dataset_index.
    destruct (foldl _ _ records). reflexivity. }
  split; [intros make group; rewrite Hmake; apply Hgroup|].
  split; [intros make model group; rewrite Hmodel, <- Hpair; apply Hgroup|].
  split; [|split].
  - intros record Hin. split.
    + exists (filter (fun r => CarImage.make r = CarImage.make record) records).
      assert (Hmem : record ∈ filter (fun r => CarImage.make r = CarImage.make record) records)
        by (apply list_elem_of_filter; done).
      split; [|done]. rewrite Hmake. apply Hgroup. split; [|done].
      intros Hnil. rewrite Hnil in Hmem. by apply not_elem_of_nil in Hmem.
    + exists (filter (fun r => (CarImage.make r, CarImage.model r)
                               = (CarImage.make record, CarImage.model record))
                     records).
      assert (Hmem : record ∈ filter (fun r => (CarImage.make r, CarImage.model r)
                               = (CarImage.make record, CarImage.model record))
                     records)
        by (apply list_elem_of_filter; done).
      split; [|done]. rewrite Hmodel. apply Hgroup. split; [|done].
      intros Hnil. rewrite Hnil in Hmem. by apply not_elem_of_nil in Hmem.
  - intros make group record Hlookup Hin.
    rewrite Hmake in Hlookup. apply Hgroup in Hlookup as [_ ->].
    by apply list_elem_of_filter in Hin.
  - intros make model group record Hlookup Hin.
    rewrite Hmodel in Hlookup. apply Hgroup in Hlookup as [_ ->].
    apply list_elem_of_filter in Hin as [[= -> ->] Hin]. done.
Qed.

(** The groups of a built index hold records of the index. *)
Lemma build_dataset_index_within records cache_dir thumb_dir :
  groups_within_records
    (indexer._build_dataset_index records cache_dir thumb_dir).
Proof.
  destruct (build_dataset_index_groups records cache_dir thumb_dir)
    as [Hmake Hmodel].
  assert (Hrecords : DatasetIndex.records
                       (indexer._build_dataset_index records cache_dir thumb_dir)
                     = records).
  { unfold indexer._build_dataset_index.
    destruct (foldl _ _ records). reflexivity. }
  assert (Hgroup : forall {K} `{EqDecision K} (key_of : CarImage.t -> K) key car,
            car ∈ default [] (group_of key_of key records) -> car ∈ records).
  { intros K HK key_of key car. unfold group_of.
    destruct (filter _ records) as [|record group] eqn:Hfilter; cbn.
    - intros Hin. by apply not_elem_of_nil in Hin.
    - rewrite <- Hfilter. by intros [_ Hin]%list_elem_of_filter. }
  split.
  - intros make car. unfold DatasetIndex.get_by_make.
    rewrite Hmake, Hrecords. apply Hgroup.
  - intros make model car. unfold DatasetIndex.get_by_make_model.
    rewrite Hmodel, Hrecords. apply Hgroup.
Qed.
End Grouping.

(** ** The filename parser *)

Section Parser.
Context `{Platform}.

(** A list of at least 17 tokens, taken apart. *)
Lemma seventeen_tokens (parts : list string) :
  (17 <= length parts)%nat ->
  exists t0 t1 t2 t3 t4 t5 t6 t7 t8 t9 t10 t11 t12 t13 t14 t15 t16 rest,
    parts = [t0; t1; t2; t3; t4; t5; t6; t7; t8; t9; t10; t11; t12; t13;
             t14; t15; t16] ++ rest.
Proof.
  intros Hlen.
  do 17 (destruct parts as [|? parts]; [cbn in Hlen; lia|]).
  repeat eexists.
Qed.

(** C4. parse_filename never raises.  It returns a record if and only if
    the stem splits on '_' into at least 17 tokens and int() accepts the
    third one, and returns None otherwise.  The record has the stem as id,
    tokens 1 to 3 as make, model and year, token 17 as random_id, and maps
    each of the 16 spec keys to the token at its position. *)
Theorem parse_filename_spec (path : Path) :
  let stem := path_stem path in
  let parts := split "_" stem in
  let accepted :=
    (17 <= length parts)%nat
    /\ exists token, parts !! 2%nat = Some token /\ is_Some (int_of_str token) in
  (exists outcome, parser.parse_filename path = Ok outcome)
  /\ ((exists car, parser.parse_filename path = Ok (Some car)) <-> accepted)
  /\ (parser.parse_filename path = Ok None <-> ~ accepted)
  /\ (forall car,
        parser.parse_filename path = Ok (Some car) ->
        CarImage.id car = stem
        /\ CarImage.path car = path
        /\ parts !! 0%nat = Some (CarImage.make car)
        /\ parts !! 1%nat = Some (CarImage.model car)
        /\ (exists token,
              parts !! 2%nat = Some token
              /\ int_of_str token = Some (CarImage.year car))
        /\ parts !! 16%nat = Some (CarImage.random_id car)
        /\ (forall (i : nat) key,
              parser.SPEC_KEYS !! i = Some key ->
              CarImage.specs car !! key = parts !! i)).
Proof.
  intros stem parts accepted. subst accepted.
  unfold parser.parse_filename. fold stem. fold parts.
  generalize parts. clear parts. intros parts.
  unfold parser.TOKEN_COUNT.
  change (length parser.SPEC_KEYS) with 16%nat.
  change (16 + 1)%nat with 17%nat.
  destruct (Nat.ltb_spec (length parts) 17) as [Hshort|Hlong].
  - split; [by eexists|]. split; [|split].
    + split; [intros [car Hcar]; discriminate | intros [Hlen _]; lia].
    + split; [intros _ [Hlen _]; lia | done].
    + intros car Hcar. discriminate.
  - destruct (seventeen_tokens parts Hlong)
      as (t0 & t1 & t2 & t3 & t4 & t5 & t6 & t7 & t8 & t9 & t10 & t11 & t12
          & t13 & t14 & t15 & t16 & rest & ->).
    set (tokens := [t0; t1; t2; t3; t4; t5; t6; t7; t8; t9; t10; t11; t12;
                    t13; t14; t15; t16] ++ rest) in *.
    set (specs := foldl _ _ _).
    assert (Hspecs : forall (i : nat) key,
              parser.SPEC_KEYS !! i = Some key -> specs !! key = tokens !! i).
    { intros i key Hkey. subst specs tokens.
      cbn -[insert lookup] in *.
      do 16 (destruct i as [|i];
             [injection Hkey as <-;
              rewrite ?lookup_insert_eq, ?lookup_insert_ne by done;
              rewrite ?lookup_insert_eq; reflexivity|]).
      destruct i; discriminate. }
    unfold dict_getitem, list_getitem.
    rewrite (Hspecs 0%nat "make" eq_refl), (Hspecs 1%nat "model" eq_refl),
      (Hspecs 2%nat "year" eq_refl).
    change (tokens !! 0%nat) with (Some t0).
    change (tokens !! 1%nat) with (Some t1).
    change (tokens !! 2%nat) with (Some t2).
    change (tokens !! 16%nat) with (Some t16).
    cbn [mbind result_bind]. unfold py_int.
    destruct (int_of_str t2) as [year|] eqn:Hyear.
    + split; [by eexists|]. split; [|split].
      * split; [|by eexists]. intros _. split; [done|].
        exists t2. by rewrite Hyear.
      * split; [done|]. intros []. split; [done|].
        exists t2. by rewrite Hyear.
      * intros car [= <-]. cbn.
        repeat split; try done. by exists t2.
    + split; [by eexists|]. split; [|split].
      * split; [intros [car Hcar]; discriminate|].
        intros [_ (token & [= <-] & Hsome)].
        rewrite Hyear in Hsome. by destruct Hsome.
      * split; [|done]. intros _ [_ (token & [= <-] & Hsome)].
        rewrite Hyear in Hsome. by destruct Hsome.
      * intros car Hcar. discriminate.
Qed.
End Parser.

(** ** The dataset digest *)

Section Digest.
Context `{Platform}.

(** [sorted] depends on the paths it is given, not on their order. *)
Lemma sorted_permutation (paths paths' : list Path) :
  paths ≡ₚ paths' -> indexer.sorted paths = indexer.sorted paths'.
Proof.
  intros Hperm. unfold indexer.sorted.
  apply (StronglySorted_unique path_le).
  - apply StronglySorted_merge_sort; apply _.
  - apply StronglySorted_merge_sort; apply _.
  - by rewrite !merge_sort_Permutation.
Qed.

(** C5. The digest of a list of paths is the digest of every permutation
    of the list (the file system being the same): it does not depend on
    the order in which the files were discovered. *)
Theorem compute_digest_permutation (fs : FileSystem.t)
    (paths paths' : list Path) :
  paths ≡ₚ paths' ->
  indexer._compute_digest fs paths = indexer._compute_digest fs paths'.
Proof.
  intros Hperm. unfold indexer._compute_digest.
  by rewrite (sorted_permutation paths paths' Hperm).
Qed.
End Digest.

(** ** The cached snapshot *)

Section Cache.
Context `{Platform}.

Lemma json_specs_fmap (specs : gmap string string) :
  indexer.json_specs (JDict (JStr <$> specs)) = Ok specs.
Proof.
  unfold indexer.json_specs. rewrite decide_True.
  - f_equal. apply map_eq. intros key.
    rewrite lookup_omap, lookup_fmap. by destruct (specs !! key).
  - apply map_Forall_fmap. intros key value _. by eexists.
Qed.

(** Reading back the entry written for a record gives the record. *)
Lemma car_of_entry_to_json (car : CarImage.t) :
  indexer.car_of_entry (DatasetIndex.car_to_json car) = Ok car.
Proof.
  destruct car as [id path make model year random_id specs].
  unfold indexer.car_of_entry, DatasetIndex.car_to_json,
    indexer.json_getitem, indexer.json_get.
  cbn -[insert lookup indexer.json_specs].
  repeat (rewrite lookup_insert_eq || rewrite lookup_insert_ne by done).
  cbn -[insert lookup indexer.json_specs].
  rewrite json_specs_fmap. cbn. by rewrite Path_of_str_str.
Qed.

Lemma mapM_car_of_entry (records : list CarImage.t) :
  mapM indexer.car_of_entry (DatasetIndex.car_to_json <$> records) = Ok records.
Proof.
  induction records as [|car records IH]; [done|].
  cbn [fmap list_fmap mapM]. rewrite car_of_entry_to_json. cbn.
  fold (DatasetIndex.car_to_json <$> records). by rewrite IH.
Qed.

(** The records read from the payload that [to_json_serializable] makes
    are the records of the index. *)
Lemma cached_records_to_json (index : DatasetIndex.t) (digest : string) :
  indexer.cached_records (DatasetIndex.to_json_serializable index digest) digest
  = Ok (Some (DatasetIndex.records index)).
Proof.
  unfold indexer.cached_records, DatasetIndex.to_json_serializable,
    indexer.json_get.
  cbn -[insert lookup mapM].
  repeat (rewrite lookup_insert_eq || rewrite lookup_insert_ne by done).
  cbn -[insert lookup mapM]. rewrite bool_decide_eq_true_2 by done.
  cbn -[insert lookup mapM].
  repeat (rewrite lookup_insert_eq || rewrite lookup_insert_ne by done).
  cbn -[insert lookup mapM]. by rewrite mapM_car_of_entry.
Qed.

(** C6. Let the cache file hold what to_json_serializable makes of an
    index with a non-empty record list, under the digest of the current
    image files.  Then load_index, not forced to rebuild, takes the
    cache-hit path: it returns the index built from a record list equal to
    the original one, record by record and field by field, and leaves the
    file system as it is. *)
Theorem load_index_cache_round_trip (fs : FileSystem.t)
    (data_dir cache_dir thumb_dir : Path) (index : DatasetIndex.t)
    (digest : string) :
  DatasetIndex.records index <> [] ->
  indexer._iter_image_paths fs data_dir <> [] ->
  indexer._compute_digest fs (indexer._iter_image_paths fs data_dir)
    = Ok digest ->
  FileSystem.read_json fs (path_join cache_dir indexer.CACHE_FILENAME)
    = Some (Ok (DatasetIndex.to_json_serializable index digest)) ->
  indexer.cached_records
    (DatasetIndex.to_json_serializable index digest) digest
    = Ok (Some (DatasetIndex.records index))
  /\ exists loaded,
       indexer.load_index fs data_dir cache_dir thumb_dir false
         = (Ok loaded, fs)
       /\ loaded = indexer._build_dataset_index
                     (DatasetIndex.records index) cache_dir thumb_dir
       /\ DatasetIndex.records loaded = DatasetIndex.records index.
Proof.
  intros Hrecords Hpaths Hdigest Hcache.
  split; [apply cached_records_to_json|].
  eexists. split; [|split; [reflexivity|]].
  - unfold indexer.load_index.
    destruct (indexer._iter_image_paths fs data_dir) as [|image images];
      [done|].
    rewrite Hdigest. cbn [negb]. rewrite Hcache, cached_records_to_json.
    destruct (DatasetIndex.records index) as [|car cars]; [done|].
    reflexivity.
  - unfold indexer._build_dataset_index.
    destruct (foldl _ _ _). reflexivity.
Qed.
End Cache.

(** ** The random generator *)

Section RandomFacts.
Context `{Platform}.

Lemma swap_permutation {A} (x : list A) (i j : nat) : swap x i j ≡ₚ x.
Proof.
  unfold swap.
  destruct (x !! i) as [a|] eqn:Hi; [|done].
  destruct (x !! j) as [b|] eqn:Hj; [|done].
  pose proof (lookup_lt_Some _ _ _ Hi) as Hilt.
  pose proof (lookup_lt_Some _ _ _ Hj) as Hjlt.
  apply Permutation_inj. split; [by rewrite !length_insert|].
  exists (fun k => if decide (k = i) then j
                   else if decide (k = j) then i else k).
  split.
  - intros k1 k2. repeat case_decide; congruence.
  - intros k. rewrite !list_lookup_insert, length_insert.
    repeat case_decide; destruct_and?; subst; try congruence; try lia;
      exfalso; tauto.
Qed.

Lemma shuffle_from_permutation {A} (i : nat) (rng : Rng) (x : list A) :
  (shuffle_from i rng x).1 ≡ₚ x.
Proof.
  revert rng x. induction i as [|i IH]; intros rng x; cbn; [done|].
  destruct (randbelow rng (S (S i))) as [j rng'].
  rewrite IH. apply swap_permutation.
Qed.

(** [rng.shuffle] rearranges the list. *)
Lemma shuffle_permutation {A} (rng : Rng) (x : list A) :
  (shuffle rng x).1 ≡ₚ x.
Proof. apply shuffle_from_permutation. Qed.

(** [rng.choice] takes an element of a non-empty list. *)
Lemma choice_elem_of {A} (rng : Rng) (seq : list A) :
  seq <> [] -> exists a, (choice rng seq).1 = Ok a /\ a ∈ seq.
Proof.
  intros Hne. unfold choice. destruct seq as [|a0 seq']; [done|].
  set (seq := a0 :: seq') in *.
  pose proof (randbelow_lt rng (length seq)) as Hlt.
  destruct (randbelow rng (length seq)) as [j rng']. cbn in Hlt |- *.
  destruct (lookup_lt_is_Some_2 seq j) as [a Ha]; [apply Hlt; cbn; lia|].
  exists a. unfold list_getitem. rewrite Ha. split; [done|].
  by eapply list_elem_of_lookup_2.
Qed.
End RandomFacts.

(** ** Selecting the car of a question *)

Section SelectCar.
Context `{Platform}.
Implicit Types (pool : list CarImage.t) (used_ids : gset string).

(** The random attempts never raise on a non-empty pool, and what they
    return is an unused record of the pool. *)
Lemma random_tries_spec (n : nat) pool used_ids (rng : Rng) :
  pool <> [] ->
  exists found rng',
    engine.random_tries n pool used_ids rng = (Ok found, rng')
    /\ forall candidate,
         found = Some candidate ->
         candidate ∈ pool /\ CarImage.id candidate ∉ used_ids.
Proof.
  intros Hpool. revert rng.
  induction n as [|n IH]; intros rng; cbn.
  - by exists None, rng.
  - destruct (choice_elem_of rng pool Hpool) as (candidate & Hpick & Hin).
    destruct (choice rng pool) as [picked rng']. cbn in Hpick. subst picked.
    destruct (decide (CarImage.id candidate ∉ used_ids)) as [Hfree|Hused].
    + exists (Some candidate), rng'. split; [done|]. by intros ? [= <-].
    + apply IH.
Qed.

Lemma first_unused_spec pool used_ids :
  match engine.first_unused pool used_ids with
  | Some candidate => candidate ∈ pool /\ CarImage.id candidate ∉ used_ids
  | None => forall candidate, candidate ∈ pool -> CarImage.id candidate ∈ used_ids
  end.
Proof.
  induction pool as [|car pool IH]; cbn.
  - intros candidate Hin. by apply not_elem_of_nil in Hin.
  - destruct (decide (CarImage.id car ∉ used_ids)) as [Hfree|Hused].
    + split; [apply list_elem_of_here | done].
    + destruct (engine.first_unused pool used_ids) as [candidate|].
      * destruct IH. split; [by apply list_elem_of_further | done].
      * intros candidate [->|Hin]%elem_of_cons; [|by apply IH].
        by apply dec_stable.
Qed.

(** A pool of records with distinct ids that are all used is no longer
    than the set of used ids. *)
Lemma all_used_length pool used_ids :
  NoDup (CarImage.id <$> pool) ->
  (forall candidate, candidate ∈ pool -> CarImage.id candidate ∈ used_ids) ->
  (length pool <= size used_ids)%nat.
Proof.
  intros Hnodup Hused.
  rewrite <- (length_fmap CarImage.id pool),
    <- (size_list_to_set (C := gset string) _ Hnodup).
  apply subseteq_size. intros i [car [-> Hin]]%elem_of_list_to_set%list_elem_of_fmap.
  by apply Hused.
Qed.

(** C9 (as amended). For an index whose pool is not empty and whose
    records have pairwise distinct ids, _select_car returns a record of the
    pool whose id is not in the used-id set it leaves behind, and never
    raises.  The used-id set is cleared exactly when the pool has no more
    records than there are used ids, which is the case when every record
    id is used; the rest of the state is untouched. *)
Theorem select_car_returns (index : DatasetIndex.t) (state : QuizState.t)
    (rng : Rng) :
  DatasetIndex.records index <> [] ->
  NoDup (CarImage.id <$> DatasetIndex.records index) ->
  let pool := DatasetIndex.records index in
  let exhausted :=
    bool_decide (length pool <= size (QuizState.used_ids state))%nat in
  let state' :=
    if exhausted then QuizState.set_used_ids ∅ state else state in
  (exists car rng',
     engine._select_car index state rng = (Ok car, state', rng')
     /\ car ∈ pool
     /\ CarImage.id car ∉ QuizState.used_ids state')
  /\ ((forall record, record ∈ pool ->
         CarImage.id record ∈ QuizState.used_ids state) ->
      exhausted = true /\ QuizState.used_ids state' = ∅).
Proof.
  intros Hpool Hnodup pool exhausted state'.
  assert (Hstate : (if Z.of_nat (length pool)
                         - Z.of_nat (size (QuizState.used_ids state)) <=? 0
                    then QuizState.set_used_ids ∅ state else state) = state').
  { subst state' exhausted.
    destruct (Z.leb_spec (Z.of_nat (length pool)
                          - Z.of_nat (size (QuizState.used_ids state))) 0);
      [rewrite bool_decide_eq_true_2 by lia
      |rewrite bool_decide_eq_false_2 by lia]; done. }
  assert (Hinh : exists record, record ∈ pool).
  { subst pool. destruct (DatasetIndex.records index) as [|record records];
      [done | exists record; apply list_elem_of_here]. }
  assert (Hfree : exists record,
            record ∈ pool /\ CarImage.id record ∉ QuizState.used_ids state').
  { pose proof (first_unused_spec pool (QuizState.used_ids state')) as Hscan.
    destruct (engine.first_unused pool (QuizState.used_ids state'))
      as [record|]; [by exists record|].
    exfalso. subst state' exhausted. case_bool_decide as Hsize; cbn in Hscan.
    - destruct Hinh as [record Hin].
      specialize (Hscan record Hin). set_solver.
    - pose proof (all_used_length pool _ Hnodup Hscan). lia. }
  split.
  - unfold engine._select_car, DatasetIndex.get_random_pool. fold pool.
    destruct pool as [|record0 pool'] eqn:Hpool_eq; [done|].
    rewrite <- Hpool_eq in *. rewrite Hstate.
    destruct (random_tries_spec 256 pool (QuizState.used_ids state') rng)
      as (found & rng' & -> & Hfound); [by rewrite Hpool_eq|].
    destruct found as [candidate|].
    + destruct (Hfound candidate eq_refl). by exists candidate, rng'.
    + pose proof (first_unused_spec pool (QuizState.used_ids state')) as Hscan.
      destruct (engine.first_unused pool (QuizState.used_ids state'))
        as [candidate|].
      * destruct Hscan. by exists candidate, rng'.
      * destruct Hfree as (record & Hin & Hnot). by apply Hscan in Hin.
  - intros Hall. subst state' exhausted.
    rewrite bool_decide_eq_true_2 by (by apply all_used_length). done.
Qed.
End SelectCar.

(** ** The answer choices *)

Section ListFacts.
Context {A B : Type} `{EqDecision B} (f : A -> B).

Lemma nodup_fmap_inj (l : list A) (x y : A) :
  NoDup (f <$> l) -> x ∈ l -> y ∈ l -> f x = f y -> x = y.
Proof.
  induction l as [|a l IH]; cbn; intros Hnodup Hx Hy Hxy.
  - by apply not_elem_of_nil in Hx.
  - apply NoDup_cons in Hnodup as [Hnotin Hnodup].
    apply elem_of_cons in Hx as [->|Hx];
      apply elem_of_cons in Hy as [->|Hy]; try done.
    + exfalso. apply Hnotin. rewrite Hxy. by apply list_elem_of_fmap_2.
    + exfalso. apply Hnotin. rewrite <- Hxy. by apply list_elem_of_fmap_2.
    + by apply IH.
Qed.

Lemma nodup_fmap_filter (P : A -> Prop) `{forall x, Decision (P x)} (l : list A) :
  NoDup (f <$> l) -> NoDup (f <$> filter P l).
Proof.
  induction l as [|a l IH]; intros Hnodup; [done|].
  cbn in Hnodup. apply NoDup_cons in Hnodup as [Hnotin Hnodup].
  rewrite filter_cons. case_decide; [|by apply IH].
  cbn. apply NoDup_cons. split; [|by apply IH].
  intros (y & Hy & Hin)%list_elem_of_fmap.
  apply list_elem_of_filter in Hin as [_ Hin].
  apply Hnotin. rewrite Hy. by apply list_elem_of_fmap_2.
Qed.

Lemma filter_none (P : A -> Prop) `{forall x, Decision (P x)} (l : list A) :
  (forall x, x ∈ l -> ~ P x) -> filter P l = [].
Proof.
  induction l as [|a l IH]; intros Hnone; [done|].
  rewrite filter_cons_False by (apply Hnone, list_elem_of_here).
  apply IH. intros x Hx. by apply Hnone, list_elem_of_further.
Qed.

(** In a list with distinct keys, one element has a given key of the
    list. *)
Lemma nodup_fmap_count (l : list A) (b : B) :
  NoDup (f <$> l) -> b ∈ f <$> l ->
  length (filter (fun x => f x = b) l) = 1%nat.
Proof.
  induction l as [|a l IH]; intros Hnodup Hin.
  - by apply not_elem_of_nil in Hin.
  - cbn in Hnodup, Hin. apply NoDup_cons in Hnodup as [Hnotin Hnodup].
    rewrite filter_cons. case_decide as Hb.
    + subst b. cbn. f_equal.
      rewrite filter_none; [done|].
      intros x Hx Hfx. apply Hnotin.
      rewrite <- Hfx. by apply list_elem_of_fmap_2.
    + apply elem_of_cons in Hin as [->|Hin]; [done|]. by apply IH.
Qed.
End ListFacts.

Section Choices.
Context `{Platform}.
Variables (correct : CarImage.t) (index : DatasetIndex.t)
          (mode : QuizMode.t) (total_choices : Z).
Hypothesis Htotal : 2 <= total_choices.
Hypothesis Hgroups : groups_within_records index.
Hypothesis Hids : NoDup (CarImage.id <$> DatasetIndex.records index).

#[local] Abbreviation others := (other_records correct index).

(** What the loops keep true of their variables. *)
Record picks_ok (acc : options.picks) : Prop := {
  ok_seen_ids :
    options.seen_ids acc
    = {[CarImage.id correct]}
        ∪ list_to_set (CarImage.id <$> options.distractors acc);
  ok_others : forall car, car ∈ options.distractors acc -> car ∈ others;
  ok_nodup : NoDup (CarImage.id <$> options.distractors acc);
  ok_length : Z.of_nat (length (options.distractors acc)) <= total_choices - 1
}.

Definition labels_seen (acc : options.picks) : Prop :=
  forall car,
    car ∈ options.distractors acc ->
    options.format_label car mode ∈ options.seen_labels acc.

Lemma others_id_inj (car car' : CarImage.t) :
  car ∈ others -> car' ∈ others ->
  CarImage.id car = CarImage.id car' -> car = car'.
Proof.
  intros [_ Hcar]%list_elem_of_filter [_ Hcar']%list_elem_of_filter.
  by apply (nodup_fmap_inj CarImage.id (DatasetIndex.records index)).
Qed.

(** Appending a car of the other records whose id is new. *)
Lemma picks_ok_append (acc : options.picks) (car : CarImage.t)
    (labels : gset string) :
  picks_ok acc ->
  car ∈ others ->
  CarImage.id car ∉ (list_to_set (CarImage.id <$> options.distractors acc)
                     : gset string) ->
  Z.of_nat (length (options.distractors acc)) < total_choices - 1 ->
  picks_ok {| options.distractors := options.distractors acc ++ [car];
              options.seen_ids := options.seen_ids acc ∪ {[CarImage.id car]};
              options.seen_labels := labels |}.
Proof.
  intros [Hseen Hothers Hnodup Hlen] Hcar Hnew Hroom.
  split; cbn.
  - rewrite Hseen, fmap_app, list_to_set_app_L. cbn.
    by rewrite (right_id_L ∅ (∪)), (assoc_L (∪)).
  - intros car' [Hin| ->%list_elem_of_singleton]%elem_of_app; auto.
  - rewrite fmap_app. apply NoDup_app. split; [done|]. split.
    + intros i Hi ->%list_elem_of_singleton.
      apply Hnew. by apply elem_of_list_to_set.
    + apply NoDup_singleton.
  - rewrite length_app. cbn. lia.
Qed.

Lemma take_from_pool_ok (pool_list : list CarImage.t) (acc : options.picks) :
  (forall car, car ∈ pool_list -> car ∈ others) ->
  picks_ok acc -> labels_seen acc ->
  picks_ok (options.take_from_pool mode total_choices pool_list acc)
  /\ labels_seen (options.take_from_pool mode total_choices pool_list acc).
Proof.
  revert acc.
  induction pool_list as [|car rest IH]; intros acc Hpool Hok Hlabels; cbn;
    [done|].
  destruct (Z.geb_spec (Z.of_nat (length (options.distractors acc)))
                       (total_choices - 1)) as [Hfull|Hroom]; [done|].
  assert (Hrest : forall car', car' ∈ rest -> car' ∈ others)
    by (intros car' Hin; by apply Hpool, list_elem_of_further).
  case_decide as Hlabel; [by apply IH|].
  apply IH; [done| |].
  - apply picks_ok_append; [done|apply Hpool, list_elem_of_here| |done].
    intros (car' & Hid & Hin)%elem_of_list_to_set%list_elem_of_fmap.
    apply Hlabel.
    assert (car = car') as ->; [|by apply Hlabels].
    apply others_id_inj; [apply Hpool, list_elem_of_here| |done].
    by apply (ok_others acc).
  - intros car' [Hin| ->%list_elem_of_singleton]%elem_of_app; cbn.
    + apply elem_of_union_l. by apply Hlabels.
    + apply elem_of_union_r. by apply elem_of_singleton.
Qed.

Lemma visit_pools_ok (pools : list (list CarImage.t)) (acc : options.picks)
    (rng : Rng) :
  (forall pool car, pool ∈ pools -> car ∈ pool -> car ∈ others) ->
  picks_ok acc -> labels_seen acc ->
  picks_ok (options.visit_pools mode total_choices pools acc rng).1.
Proof.
  revert acc rng.
  induction pools as [|pool rest IH]; intros acc rng Hpools Hok Hlabels; cbn;
    [done|].
  pose proof (shuffle_permutation rng pool) as Hperm.
  destruct (shuffle rng pool) as [pool_list rng']. cbn in Hperm.
  destruct (take_from_pool_ok pool_list acc) as [Hok' Hlabels']; [|done..|].
  { intros car Hin. apply (Hpools pool); [apply list_elem_of_here|].
    by rewrite <- Hperm. }
  destruct (Z.of_nat _ >=? _); [done|].
  apply IH; [|done..].
  intros pool' car Hpool'. by apply Hpools, list_elem_of_further.
Qed.

Lemma candidate_pools_others (pool : list CarImage.t) (car : CarImage.t) :
  pool ∈ options.candidate_pools correct index mode {[CarImage.id correct]} ->
  car ∈ pool -> car ∈ others.
Proof.
  destruct Hgroups as [Hmake Hmodel].
  assert (Hother : forall car', car' ∈ DatasetIndex.records index ->
            CarImage.id car' ∉ ({[CarImage.id correct]} : gset string) ->
            car' ∈ others).
  { intros car' Hin Hid. apply list_elem_of_filter. split; [|done].
    intros Heq. apply Hid. by apply elem_of_singleton. }
  unfold options.candidate_pools, DatasetIndex.get_random_pool.
  intros Hpool Hcar.
  destruct mode;
    repeat (apply elem_of_cons in Hpool as [->|Hpool]);
    try (by apply not_elem_of_nil in Hpool);
    apply list_elem_of_filter in Hcar as [Hkeep Hin];
    try destruct Hkeep as [Hkeep _]; eauto.
Qed.

(** The final pass takes cars until the quota is met or the list ends. *)
Lemma fill_remaining_ok (remaining : list CarImage.t) (acc : options.picks) :
  picks_ok acc ->
  NoDup (CarImage.id <$> remaining) ->
  (forall car, car ∈ remaining ->
     car ∈ others /\ CarImage.id car ∉ options.seen_ids acc) ->
  let acc' := options.fill_remaining total_choices remaining acc in
  picks_ok acc'
  /\ Z.of_nat (length (options.distractors acc'))
     = Z.min (total_choices - 1)
             (Z.of_nat (length (options.distractors acc) + length remaining)).
Proof.
  revert acc.
  induction remaining as [|car rest IH]; intros acc Hok Hnodup Hrem; cbn.
  - split; [done|]. pose proof (ok_length acc Hok). lia.
  - cbn in Hnodup. apply NoDup_cons in Hnodup as [Hcar Hnodup].
    pose proof (ok_length acc Hok) as Hlen.
    destruct (Z.geb_spec (Z.of_nat (length (options.distractors acc)))
                         (total_choices - 1)) as [Hfull|Hroom].
    { split; [done|]. lia. }
    destruct (Hrem car (list_elem_of_here _ _)) as [Hother Hnew].
    edestruct (IH {| options.distractors := options.distractors acc ++ [car];
                     options.seen_ids := options.seen_ids acc ∪ {[CarImage.id car]};
                     options.seen_labels := options.seen_labels acc |})
      as [Hok' Hlen'].
    + apply picks_ok_append; [done..| |done].
      rewrite (ok_seen_ids acc Hok) in Hnew.
      intros Hin. apply Hnew. by apply elem_of_union_r.
    + done.
    + intros car' Hin. cbn.
      destruct (Hrem car' (list_elem_of_further _ _ _ Hin)) as [Hother' Hnew'].
      split; [done|]. intros [Hold|Heq%elem_of_singleton]%elem_of_union;
        [done|].
      apply Hcar. rewrite <- Heq. by apply list_elem_of_fmap_2.
    + split; [done|]. rewrite Hlen'. cbn. rewrite length_app. cbn. lia.
Qed.

(** The other records are the distractors picked so far and the records
    whose id has not been seen. *)
Lemma others_split (acc : options.picks) :
  picks_ok acc ->
  let remaining :=
    filter (fun car => CarImage.id car ∉ options.seen_ids acc)
           (DatasetIndex.records index) in
  (length (options.distractors acc) + length remaining)%nat = length others.
Proof.
  intros Hok remaining.
  set (picked := fun car : CarImage.t =>
         CarImage.id car ∈ (list_to_set (CarImage.id <$> options.distractors acc)
                            : gset string)).
  assert (Hremaining : remaining = filter (fun car => ~ picked car) others).
  { subst remaining. unfold other_records. rewrite list_filter_filter.
    apply list_filter_iff. intros car. rewrite (ok_seen_ids acc Hok).
    rewrite not_elem_of_union, not_elem_of_singleton. subst picked. cbn. tauto. }
  assert (Hpicked : filter picked others ≡ₚ options.distractors acc).
  { apply NoDup_Permutation.
    - apply NoDup_filter, NoDup_filter. by eapply NoDup_fmap_1.
    - eapply NoDup_fmap_1, (ok_nodup acc Hok).
    - intros car. rewrite list_elem_of_filter. subst picked. cbn. split.
      + intros [(car' & Hid & Hin)%elem_of_list_to_set%list_elem_of_fmap Hcar].
        assert (car = car') as ->; [|done].
        apply others_id_inj; [done| |done]. by apply (ok_others acc).
      + intros Hin. split; [|by apply (ok_others acc)].
        by apply elem_of_list_to_set, list_elem_of_fmap_2. }
  rewrite <- (filter_app_complement picked others) at 1.
  by rewrite length_app, Hpicked, Hremaining.
Qed.

(** Distractors with distinct ids are no more than the other records. *)
Lemma distractors_le_others (acc : options.picks) :
  picks_ok acc ->
  (length (options.distractors acc) <= length others)%nat.
Proof.
  intros Hok. apply submseteq_length, NoDup_submseteq.
  - eapply NoDup_fmap_1, (ok_nodup acc Hok).
  - apply (ok_others acc Hok).
Qed.

(** C1 (as amended). For every mode, every total_choices >= 2 and every
    index whose groups hold records of the index and whose records have
    pairwise distinct ids, generate_choices returns
    min(total_choices, 1 + m) choices, where m is the number of records of
    the index whose id differs from the correct record's: exactly
    total_choices of them when the index has at least total_choices - 1
    such records.  The ids of the choices are pairwise distinct and the id
    of the correct record is the id of exactly one choice. *)
Theorem generate_choices_count (rng : option Rng) (unseeded : Rng) :
  exists choices,
    (options.generate_choices correct index mode total_choices rng unseeded).1
      = Ok choices
    /\ Z.of_nat (length choices)
       = Z.min total_choices (1 + Z.of_nat (length others))
    /\ (total_choices - 1 <= Z.of_nat (length others) ->
          Z.of_nat (length choices) = total_choices)
    /\ NoDup (AnswerChoice.id <$> choices)
    /\ length (filter (fun choice =>
                         AnswerChoice.id choice = CarImage.id correct) choices)
       = 1%nat.
Proof.
  unfold options.generate_choices.
  rewrite (proj2 (Z.ltb_ge total_choices 2) Htotal).
  set (start := {| options.distractors := [];
                   options.seen_ids := {[CarImage.id correct]};
                   options.seen_labels := {[options.format_label correct mode]} |}).
  assert (Hstart : picks_ok start).
  { split; cbn; [by rewrite (right_id_L ∅ (∪)) | | apply NoDup_nil_2 | lia].
    intros car Hin. by apply not_elem_of_nil in Hin. }
  assert (Hstart_labels : labels_seen start).
  { intros car Hin. by apply not_elem_of_nil in Hin. }
  pose proof (visit_pools_ok
                (options.candidate_pools correct index mode (options.seen_ids start))
                start (default unseeded rng)
                candidate_pools_others Hstart Hstart_labels) as Hvisited.
  destruct (options.visit_pools _ _ _ _ _) as [visited rng1].
  cbn [fst] in Hvisited.
  (* the distractors after the final pass *)
  assert (Hfinal : exists final rng2,
            (if Z.of_nat (length (options.distractors visited))
                  <? total_choices - 1
             then
               let '(remaining, rng) :=
                 shuffle rng1
                   (filter (fun car => CarImage.id car ∉ options.seen_ids visited)
                           (DatasetIndex.get_random_pool index)) in
               (options.fill_remaining total_choices remaining visited, rng)
             else (visited, rng1)) = (final, rng2)
            /\ picks_ok final
            /\ Z.of_nat (length (options.distractors final))
               = Z.min (total_choices - 1) (Z.of_nat (length others))).
  { destruct (Z.ltb_spec (Z.of_nat (length (options.distractors visited)))
                         (total_choices - 1)) as [Hshort|Hfull].
    - unfold DatasetIndex.get_random_pool.
      set (remaining := filter _ (DatasetIndex.records index)).
      pose proof (shuffle_permutation rng1 remaining) as Hperm.
      destruct (shuffle rng1 remaining) as [shuffled rng2]. cbn in Hperm.
      destruct (fill_remaining_ok shuffled visited Hvisited) as [Hok Hlen].
      + rewrite Hperm. by apply nodup_fmap_filter.
      + intros car Hin. rewrite Hperm in Hin.
        apply list_elem_of_filter in Hin as [Hnew Hin]. split; [|done].
        apply list_elem_of_filter. split; [|done].
        intros Heq. apply Hnew. rewrite (ok_seen_ids visited Hvisited).
        by apply elem_of_union_l, elem_of_singleton.
      + exists (options.fill_remaining total_choices shuffled visited), rng2.
        split; [done|]. split; [done|].
        rewrite Hlen, Hperm. subst remaining.
        by rewrite (others_split visited Hvisited).
    - exists visited, rng1. split; [done|]. split; [done|].
      pose proof (ok_length visited Hvisited).
      pose proof (distractors_le_others visited Hvisited). lia. }
  destruct Hfinal as (final & rng2 & -> & Hok & Hlen).
  assert (Hslice : options.slice_to (options.distractors final) (total_choices - 1)
                   = options.distractors final).
  { unfold options.slice_to. rewrite (proj2 (Z.leb_le 0 _)) by lia.
    apply take_ge. lia. }
  rewrite Hslice.
  pose proof (shuffle_permutation rng2 (correct :: options.distractors final))
    as Hperm.
  destruct (shuffle rng2 _) as [choices rng3]. cbn in Hperm. cbn [fst].
  eexists. split; [reflexivity|].
  assert (Hchoice_ids : AnswerChoice.id <$> (options.to_choice mode <$> choices)
                        = CarImage.id <$> choices).
  { rewrite <- list_fmap_compose. by apply list_fmap_ext. }
  assert (Hnodup : NoDup (CarImage.id <$> choices)).
  { rewrite Hperm. cbn. apply NoDup_cons. split; [|apply (ok_nodup final Hok)].
    intros (car & Hid & Hin)%list_elem_of_fmap.
    apply (ok_others final Hok), list_elem_of_filter in Hin as [Hne _]. done. }
  assert (Hlength : Z.of_nat (length (options.to_choice mode <$> choices))
                    = Z.min total_choices (1 + Z.of_nat (length others))).
  { rewrite length_fmap, Hperm. cbn [length]. lia. }
  split; [done|]. split; [lia|]. split; [by rewrite Hchoice_ids|].
  apply (nodup_fmap_count AnswerChoice.id).
  - by rewrite Hchoice_ids.
  - rewrite Hchoice_ids, Hperm. cbn. apply list_elem_of_here.
Qed.
End Choices.

(** * The properties on the sample data *)

Section Samples.
Import reference examples.

(** The specification's example: correct Honda Civic 2015, guess Honda
    Civic 2016, mode make+model+year. *)
Lemma honda_civic_score :
  let detail :=
    engine._compute_score civic_2015 civic_2016 QuizMode.MAKE_MODEL_YEAR in
  ScoreDetail.points detail = 0.7%float
  /\ ScoreDetail.make_correct detail = true
  /\ ScoreDetail.model_correct detail = true
  /\ ScoreDetail.year_correct detail = false.
Proof.
  destruct (compute_score_make_model_year civic_2015 civic_2016 eq_refl)
    as [Hyear _].
  apply Hyear; [reflexivity | discriminate].
Defined.

(** Without an active question nothing of the state changes. *)
Lemma submit_without_question :
  QuizState.current_question fresh_state = None
  /\ engine.submit_answer fresh_state "civic15" 1%float
     = (Raise (RuntimeError "No active question to submit."), fresh_state).
Proof.
  split; [reflexivity|].
  apply (submit_answer_error_keeps_state fresh_state "civic15" 1%float).
  reflexivity.
Defined.

(** Two discovery orders of the same files. *)
Lemma digest_of_two_orders :
  (["data/civic16.jpg"; "data/civic15.jpg"] : list Path)
    ≡ₚ ["data/civic15.jpg"; "data/civic16.jpg"]
  /\ indexer._compute_digest no_cache ["data/civic16.jpg"; "data/civic15.jpg"]
     = indexer._compute_digest no_cache ["data/civic15.jpg"; "data/civic16.jpg"].
Proof.
  assert (Hperm : (["data/civic16.jpg"; "data/civic15.jpg"] : list Path)
                    ≡ₚ ["data/civic15.jpg"; "data/civic16.jpg"])
    by apply perm_swap.
  split; [exact Hperm|].
  exact (compute_digest_permutation no_cache _ _ Hperm).
Defined.

(** Loading the snapshot of [four_cars]. *)
Lemma load_four_cars_from_cache :
  DatasetIndex.records four_cars <> []
  /\ indexer._iter_image_paths with_cache "data" <> []
  /\ indexer._compute_digest with_cache
       (indexer._iter_image_paths with_cache "data") = Ok digest
  /\ FileSystem.read_json with_cache (join "cache" indexer.CACHE_FILENAME)
     = Some (Ok (DatasetIndex.to_json_serializable four_cars digest))
  /\ exists loaded,
       indexer.load_index with_cache "data" "cache" "thumbs" false
         = (Ok loaded, with_cache)
       /\ DatasetIndex.records loaded = DatasetIndex.records four_cars.
Proof.
  assert (Hrecords : DatasetIndex.records four_cars <> []) by discriminate.
  assert (Hpaths : indexer._iter_image_paths with_cache "data" <> [])
    by discriminate.
  split; [exact Hrecords|]. split; [exact Hpaths|].
  split; [exact eq_refl|]. split; [exact eq_refl|].
  pose proof (load_index_cache_round_trip with_cache "data" "cache" "thumbs"
                four_cars digest Hrecords Hpaths eq_refl eq_refl)
    as [_ (loaded & Hload & _ & Hsame)].
  exists loaded. split; [exact Hload | exact Hsame].
Defined.

(** Against C1 as the specification states it: the hypotheses hold and the
    conclusion does not, in two ways: the index of one record cannot fill two choices,
    and of an index in which two records share an id both can be chosen. *)
Lemma too_few_or_shared_ids :
  (2 <= 2
   /\ DatasetIndex.records one_car <> []
   /\ ~ exists choices,
          (options.generate_choices civic_2015 one_car QuizMode.MAKE 2
             (Some 7) 0).1 = Ok choices
          /\ length choices = 2%nat
          /\ NoDup (AnswerChoice.id <$> choices)
          /\ length (filter (fun choice =>
                               AnswerChoice.id choice = CarImage.id civic_2015)
                            choices) = 1%nat)
  /\ (2 <= 3
      /\ DatasetIndex.records shared_id <> []
      /\ ~ exists choices,
             (options.generate_choices civic_2015 shared_id QuizMode.MAKE 3
                (Some 7) 0).1 = Ok choices
             /\ length choices = 3%nat
             /\ NoDup (AnswerChoice.id <$> choices)
             /\ length (filter (fun choice =>
                                  AnswerChoice.id choice = CarImage.id civic_2015)
                               choices) = 1%nat).
Proof.
  split.
  - split; [lia|]. split; [discriminate|].
    intros (choices & Hchoices & Hlength & _).
    assert (Heval : (options.generate_choices civic_2015 one_car QuizMode.MAKE 2
                       (Some 7) 0).1
                    = Ok [options.to_choice QuizMode.MAKE civic_2015])
      by exact eq_refl.
    rewrite Heval in Hchoices. injection Hchoices as <-. discriminate Hlength.
  - split; [lia|]. split; [discriminate|].
    intros (choices & Hchoices & _ & Hnodup & _).
    set (ids_of := fun outcome : result (list AnswerChoice.t) =>
           match outcome with
           | Ok choices => AnswerChoice.id <$> choices
           | Raise _ => []
           end).
    assert (Heval : ids_of (options.generate_choices civic_2015 shared_id
                              QuizMode.MAKE 3 (Some 7) 0).1
                    = ["focus12"; "focus12"; "civic15"])
      by exact eq_refl.
    rewrite Hchoices in Heval. cbn in Heval. rewrite Heval in Hnodup.
    apply NoDup_cons in Hnodup as [Hnotin _].
    apply Hnotin, list_elem_of_here.
Qed.

(** Three choices out of an index of four records. *)
Lemma three_of_four_cars :
  2 <= 3
  /\ groups_within_records four_cars
  /\ NoDup (CarImage.id <$> DatasetIndex.records four_cars)
  /\ exists choices,
       (options.generate_choices civic_2015 four_cars
          QuizMode.MAKE_MODEL_YEAR 3 (Some 7) 0).1 = Ok choices
       /\ Z.of_nat (length choices) = 3
       /\ NoDup (AnswerChoice.id <$> choices)
       /\ length (filter (fun choice =>
                            AnswerChoice.id choice = CarImage.id civic_2015)
                         choices) = 1%nat.
Proof.
  assert (Htotal : 2 <= 3) by lia.
  assert (Hgroups : groups_within_records four_cars)
    by apply build_dataset_index_within.
  assert (Hids : NoDup (CarImage.id <$> DatasetIndex.records four_cars))
    by (apply (bool_decide_unpack _); exact I).
  split; [exact Htotal|]. split; [exact Hgroups|]. split; [exact Hids|].
  destruct (generate_choices_count civic_2015 four_cars
              QuizMode.MAKE_MODEL_YEAR 3 Htotal Hgroups Hids (Some 7) 0)
    as (choices & Hchoices & _ & Hexact & Hnodup & Honce).
  exists choices. split; [exact Hchoices|].
  split; [apply Hexact; discriminate|]. split; [exact Hnodup | exact Honce].
Defined.

(** Against C9 as the specification states it.  Two records of one id, and
    that id used: the pool is not empty and every record id is used, yet the
    used ids are not cleared and the selection raises. *)
Lemma select_car_fails_on_twins :
  DatasetIndex.records twins <> []
  /\ (forall record,
        record ∈ DatasetIndex.records twins ->
        CarImage.id record ∈ QuizState.used_ids civic_used)
  /\ engine._select_car twins civic_used 7
     = (Raise (RuntimeError "Unable to select a new car for the question."),
        civic_used, (engine._select_car twins civic_used 7).2).
Proof.
  split; [discriminate|]. split; [|exact eq_refl].
  change (DatasetIndex.records twins)
    with [car "civic15" "Honda" "Civic" 2015; car "civic15" "Honda" "Civic" 2015].
  change (QuizState.used_ids civic_used) with ({["civic15"]} : gset string).
  intros record Hin.
  apply elem_of_cons in Hin as [->|Hin];
    [|apply elem_of_cons in Hin as [->|Hin]];
    [apply elem_of_singleton; reflexivity ..|].
  destruct (not_elem_of_nil _ Hin).
Qed.

(** Selecting among four records when one id is used. *)
Lemma select_among_four_cars :
  DatasetIndex.records four_cars <> []
  /\ NoDup (CarImage.id <$> DatasetIndex.records four_cars)
  /\ exists car rng',
       engine._select_car four_cars civic_used 7 = (Ok car, civic_used, rng')
       /\ car ∈ DatasetIndex.records four_cars
       /\ CarImage.id car ∉ QuizState.used_ids civic_used.
Proof.
  assert (Hrecords : DatasetIndex.records four_cars <> []) by discriminate.
  assert (Hids : NoDup (CarImage.id <$> DatasetIndex.records four_cars))
    by (apply (bool_decide_unpack _); exact I).
  split; [exact Hrecords|]. split; [exact Hids|].
  exact (proj1 (select_car_returns four_cars civic_used 7 Hrecords Hids)).
Defined.
End Samples.

(** * Further properties *)

(** ** More on the filename parser *)

Section ParserMore.
Context `{Platform}.

(** [split] makes one token more than there are separators. *)
Lemma split_length (sep : ascii) (s : string) :
  length (split sep s) = S (count_char sep s).
Proof.
  induction s as [|c rest IH]; cbn; [done|].
  destruct (Ascii.eqb c sep); cbn; [by rewrite IH|].
  destruct (split sep rest) as [|tok toks]; cbn in *; congruence.
Qed.

(** What [parse_filename] returns on the tokens of a long enough stem. *)
Lemma parse_filename_tokens (path : Path)
    t0 t1 t2 t3 t4 t5 t6 t7 t8 t9 t10 t11 t12 t13 t14 t15 t16 rest :
  split "_" (path_stem path)
  = [t0; t1; t2; t3; t4; t5; t6; t7; t8; t9; t10; t11; t12; t13; t14; t15; t16]
      ++ rest ->
  parser.parse_filename path
  = match int_of_str t2 with
    | None => Ok None
    | Some year =>
        Ok (Some {| CarImage.id := path_stem path;
                    CarImage.path := path;
                    CarImage.make := t0;
                    CarImage.model := t1;
                    CarImage.year := year;
                    CarImage.random_id := t16;
                    CarImage.specs :=
                      specs_of_tokens
                        [t0; t1; t2; t3; t4; t5; t6; t7; t8; t9; t10; t11;
                         t12; t13; t14; t15] |})
    end.
Proof.
  intros Hsplit. unfold parser.parse_filename. rewrite Hsplit.
  cbn -[insert lookup].
  unfold dict_getitem, list_getitem. cbn -[insert lookup].
  repeat (rewrite lookup_insert_eq || rewrite lookup_insert_ne by done).
  cbn -[insert lookup]. unfold py_int. by destruct (int_of_str t2).
Qed.

(** [parse_filename] never raises. *)
Lemma parse_filename_total (path : Path) :
  exists outcome, parser.parse_filename path = Ok outcome.
Proof.
  destruct (Nat.ltb_spec (length (split "_" (path_stem path))) 17)
    as [Hshort|Hlong].
  - exists None. unfold parser.parse_filename, parser.TOKEN_COUNT.
    change (length parser.SPEC_KEYS + 1)%nat with 17%nat.
    by rewrite (proj2 (Nat.ltb_lt _ _) Hshort).
  - destruct (seventeen_tokens _ Hlong)
      as (t0 & t1 & t2 & t3 & t4 & t5 & t6 & t7 & t8 & t9 & t10 & t11 & t12
          & t13 & t14 & t15 & t16 & rest & Hsplit).
    rewrite (parse_filename_tokens path _ _ _ _ _ _ _ _ _ _ _ _ _ _ _ _ _ _ Hsplit).
    destruct (int_of_str t2); by eexists.
Qed.

(** A record that [parse_filename] returns has the stem as id and the path
    as path. *)
Lemma parse_filename_id (path : Path) (car : CarImage.t) :
  parser.parse_filename path = Ok (Some car) ->
  CarImage.id car = path_stem path /\ CarImage.path car = path.
Proof.
  destruct (Nat.ltb_spec (length (split "_" (path_stem path))) 17)
    as [Hshort|Hlong].
  - unfold parser.parse_filename, parser.TOKEN_COUNT.
    change (length parser.SPEC_KEYS + 1)%nat with 17%nat.
    by rewrite (proj2 (Nat.ltb_lt _ _) Hshort).
  - destruct (seventeen_tokens _ Hlong)
      as (t0 & t1 & t2 & t3 & t4 & t5 & t6 & t7 & t8 & t9 & t10 & t11 & t12
          & t13 & t14 & t15 & t16 & rest & Hsplit).
    rewrite (parse_filename_tokens path _ _ _ _ _ _ _ _ _ _ _ _ _ _ _ _ _ _ Hsplit).
    destruct (int_of_str t2); [|done]. by intros [= <-].
Qed.

(** X1. A file whose stem has fewer than 16 underscores is rejected:
    parse_filename returns None for it. *)
Theorem parse_filename_few_underscores (path : Path) :
  (count_char "_" (path_stem path) < 16)%nat ->
  parser.parse_filename path = Ok None.
Proof.
  intros Hcount. unfold parser.parse_filename, parser.TOKEN_COUNT.
  change (length parser.SPEC_KEYS + 1)%nat with 17%nat.
  rewrite split_length.
  by rewrite (proj2 (Nat.ltb_lt (S (count_char "_" (path_stem path))) 17))
    by lia.
Qed.

(** X2. The specs dictionary of a parsed record has exactly the 16 spec
    keys; its entries for make and model are the make and model of the record
    and int() of its entry for year is the year of the record. *)
Theorem parse_filename_specs (path : Path) (car : CarImage.t) :
  parser.parse_filename path = Ok (Some car) ->
  dom (CarImage.specs car) = list_to_set parser.SPEC_KEYS
  /\ size (CarImage.specs car) = 16%nat
  /\ CarImage.specs car !! "make" = Some (CarImage.make car)
  /\ CarImage.specs car !! "model" = Some (CarImage.model car)
  /\ exists year_str,
       CarImage.specs car !! "year" = Some year_str
       /\ int_of_str year_str = Some (CarImage.year car).
Proof.
  destruct (Nat.ltb_spec (length (split "_" (path_stem path))) 17)
    as [Hshort|Hlong].
  { unfold parser.parse_filename, parser.TOKEN_COUNT.
    change (length parser.SPEC_KEYS + 1)%nat with 17%nat.
    by rewrite (proj2 (Nat.ltb_lt _ _) Hshort). }
  destruct (seventeen_tokens _ Hlong)
    as (t0 & t1 & t2 & t3 & t4 & t5 & t6 & t7 & t8 & t9 & t10 & t11 & t12
        & t13 & t14 & t15 & t16 & rest & Hsplit).
  rewrite (parse_filename_tokens path _ _ _ _ _ _ _ _ _ _ _ _ _ _ _ _ _ _ Hsplit).
  destruct (int_of_str t2) as [year|] eqn:Hyear; [|done].
  intros [= <-].
  cbn [CarImage.specs CarImage.make CarImage.model CarImage.year].
  assert (Hdom : dom (specs_of_tokens
                        [t0; t1; t2; t3; t4; t5; t6; t7; t8; t9; t10; t11;
                         t12; t13; t14; t15])
                 = list_to_set parser.SPEC_KEYS).
  { unfold specs_of_tokens. cbn -[insert dom].
    rewrite !dom_insert_L, dom_empty_L. cbn. set_solver. }
  split; [exact Hdom|]. split.
  { rewrite <- size_dom, Hdom. reflexivity. }
  unfold specs_of_tokens. cbn -[insert lookup].
  split; [|split].
  - repeat (rewrite lookup_insert_eq || rewrite lookup_insert_ne by done). done.
  - repeat (rewrite lookup_insert_eq || rewrite lookup_insert_ne by done). done.
  - exists t2. split; [|done].
    repeat (rewrite lookup_insert_eq || rewrite lookup_insert_ne by done). done.
Qed.
End ParserMore.

(** ** More on the dataset digest *)

Section DigestMore.
Context `{Platform}.

Lemma StronglySorted_filter {A} (R : relation A) (P : A -> Prop)
    `{forall x, Decision (P x)} (l : list A) :
  StronglySorted R l -> StronglySorted R (filter P l).
Proof.
  induction 1 as [|x l Hsorted IH Hall]; [constructor|].
  rewrite filter_cons. case_decide; [|done].
  constructor; [done|].
  apply Forall_forall. intros y [_ Hy]%list_elem_of_filter.
  by eapply Forall_forall in Hall.
Qed.

(** Sorting and leaving paths out commute. *)
Lemma sorted_filter (P : Path -> Prop) `{forall p, Decision (P p)}
    (paths : list Path) :
  indexer.sorted (filter P paths) = filter P (indexer.sorted paths).
Proof.
  unfold indexer.sorted. apply (StronglySorted_unique path_le).
  - apply StronglySorted_merge_sort; apply _.
  - apply StronglySorted_filter, StronglySorted_merge_sort; apply _.
  - by rewrite !merge_sort_Permutation.
Qed.

Lemma digest_step_raise (fs : FileSystem.t) (e : exn) (paths : list Path) :
  foldl (indexer.digest_step fs) (Raise e) paths = Raise e.
Proof. induction paths as [|path paths IH]; [done|]. exact IH. Qed.

Lemma digest_fold_vanished (fs : FileSystem.t) (hasher : result string)
    (paths : list Path) :
  foldl (indexer.digest_step fs) hasher
        (filter (fun path => vanished fs path = false) paths)
  = foldl (indexer.digest_step fs) hasher paths.
Proof.
  revert hasher. induction paths as [|path paths IH]; intros hasher; [done|].
  rewrite filter_cons. case_decide as Hgone; cbn [foldl]; [apply IH|].
  rewrite IH. f_equal. unfold vanished in Hgone.
  destruct hasher as [data|e]; [|done]. cbn. unfold indexer.digest_step. cbn.
  destruct (FileSystem.stat fs path) as [st|[]]; done.
Qed.

(** X3. Files that have vanished when their metadata is read do not enter
    the digest: the digest of a list of paths is the digest of the paths of
    the list that are still there. *)
Theorem compute_digest_skips_vanished (fs : FileSystem.t) (paths : list Path) :
  indexer._compute_digest fs paths
  = indexer._compute_digest fs
      (filter (fun path => vanished fs path = false) paths).
Proof.
  unfold indexer._compute_digest.
  by rewrite sorted_filter, digest_fold_vanished.
Qed.

Lemma digest_fold_ok (fs : FileSystem.t) (data : string) (paths : list Path) :
  (exists data', foldl (indexer.digest_step fs) (Ok data) paths = Ok data')
  <-> forall path e,
        path ∈ paths -> FileSystem.stat fs path = Raise e ->
        exists msg, e = FileNotFoundError msg.
Proof.
  revert data. induction paths as [|path paths IH]; intros data; cbn [foldl].
  - split; [|by eexists]. intros _ path e Hin. by apply not_elem_of_nil in Hin.
  - unfold indexer.digest_step at 2. cbn.
    destruct (FileSystem.stat fs path) as [st|e] eqn:Hstat.
    + rewrite IH. split.
      * intros Hall path' e' [->|Hin]%elem_of_cons; [congruence | by apply Hall].
      * intros Hall path' e' Hin. by apply Hall, list_elem_of_further.
    + destruct e; try (rewrite digest_step_raise; split;
        [intros [data' Hdata]; discriminate
        |intros Hall; destruct (Hall path _ (list_elem_of_here _ _) Hstat);
         discriminate]).
      rewrite IH. split.
      * intros Hall path' e' [->|Hin]%elem_of_cons; [|by apply Hall].
        intros Hstat'. rewrite Hstat in Hstat'. injection Hstat' as <-.
        by eexists.
      * intros Hall path' e' Hin. by apply Hall, list_elem_of_further.
Qed.

(** X4. _compute_digest returns a digest if and only if no path of the list
    fails its stat() call with anything but FileNotFoundError; every other
    error is passed on to the caller. *)
Theorem compute_digest_returns (fs : FileSystem.t) (paths : list Path) :
  (exists digest, indexer._compute_digest fs paths = Ok digest)
  <-> forall path e,
        path ∈ paths -> FileSystem.stat fs path = Raise e ->
        exists msg, e = FileNotFoundError msg.
Proof.
  unfold indexer._compute_digest.
  assert (Hmem : forall path, path ∈ indexer.sorted paths <-> path ∈ paths).
  { intros path. unfold indexer.sorted. by rewrite merge_sort_Permutation. }
  destruct (foldl _ _ (indexer.sorted paths)) as [data|e] eqn:Hfold; cbn.
  - split; [|by eexists]. intros _ path e Hin.
    apply (proj1 (digest_fold_ok fs "" (indexer.sorted paths)));
      [by eexists | by apply Hmem].
  - split; [intros [digest Hdigest]; discriminate|].
    intros Hall.
    destruct (proj2 (digest_fold_ok fs "" (indexer.sorted paths))) as [data Hdata].
    + intros path e' Hin. by apply Hall, Hmem.
    + congruence.
Qed.
End DigestMore.

(** ** More on loading the index *)

Section LoadMore.
Context `{Platform}.
Implicit Types (fs : FileSystem.t) (index : DatasetIndex.t).

Lemma build_dataset_index_records (records : list CarImage.t)
    (cache_dir thumb_dir : Path) :
  DatasetIndex.records (indexer._build_dataset_index records cache_dir thumb_dir)
  = records.
Proof.
  unfold indexer._build_dataset_index. by destruct (foldl _ _ records).
Qed.

Lemma mapM_parse_filename (paths : list Path) :
  mapM parser.parse_filename paths = Ok (parse_outcome <$> paths).
Proof.
  induction paths as [|path paths IH]; [done|].
  cbn [mapM fmap list_fmap]. rewrite IH.
  destruct (parse_filename_total path) as [outcome Houtcome].
  assert (parse_outcome path = outcome) as ->
    by (unfold parse_outcome; by rewrite Houtcome).
  by rewrite Houtcome.
Qed.

Lemma omap_id_parse_outcome (paths : list Path) :
  omap id (parse_outcome <$> paths) = parsed_records paths.
Proof.
  unfold parsed_records. induction paths as [|path paths IH]; [done|].
  cbn. rewrite IH. by destruct (parse_outcome path).
Qed.

(** [load_index] by cases: no images, no digest, a cache hit, a rebuild. *)
Lemma load_index_unfold fs (data_dir cache_dir thumb_dir : Path)
    (force_rebuild : bool) :
  indexer.load_index fs data_dir cache_dir thumb_dir force_rebuild
  = let paths := indexer._iter_image_paths fs data_dir in
    if decide (paths = []) then
      (Raise (FileNotFoundError ("No images found in " +:+ path_str data_dir)), fs)
    else
      match indexer._compute_digest fs paths with
      | Raise e => (Raise e, fs)
      | Ok digest =>
          match (if force_rebuild then None else cache_hit fs cache_dir digest) with
          | Some records =>
              (Ok (indexer._build_dataset_index records cache_dir thumb_dir), fs)
          | None =>
              if decide (parsed_records paths = []) then
                (Raise (RuntimeError
                          "No valid car images found after parsing filenames."),
                 fs)
              else
                let dataset :=
                  indexer._build_dataset_index (parsed_records paths)
                    cache_dir thumb_dir in
                (Ok dataset,
                 FileSystem.write_json fs
                   (path_join cache_dir indexer.CACHE_FILENAME)
                   (DatasetIndex.to_json_serializable dataset digest))
          end
      end.
Proof.
  unfold indexer.load_index, cache_hit. cbn zeta.
  destruct (indexer._iter_image_paths fs data_dir) as [|path paths] eqn:Hpaths;
    [done|].
  rewrite decide_False by done.
  destruct (indexer._compute_digest fs (path :: paths)) as [digest|e]; [|done].
  rewrite mapM_parse_filename, omap_id_parse_outcome.
  destruct (parsed_records (path :: paths)) as [|car cars] eqn:Hrecords.
  - rewrite decide_True by done.
    destruct force_rebuild; cbn [negb]; [done|].
    destruct (FileSystem.read_json fs _) as [[payload|e]|]; try done;
      by destruct (indexer.cached_records payload digest) as [[[|car cars]|]|e].
  - rewrite decide_False by done.
    destruct force_rebuild; cbn [negb]; [done|].
    destruct (FileSystem.read_json fs _) as [[payload|e]|]; try done;
      by destruct (indexer.cached_records payload digest) as [[[|car' cars']|]|e].
Qed.

Lemma elem_of_parsed_records (paths : list Path) (car : CarImage.t) :
  car ∈ parsed_records paths
  <-> exists path, path ∈ paths /\ parser.parse_filename path = Ok (Some car).
Proof.
  unfold parsed_records. rewrite list_elem_of_omap. unfold parse_outcome.
  split; intros (path & Hin & Hparse); exists path; (split; [done|]).
  - by destruct (parser.parse_filename path) as [[car'|]|e]; simplify_eq.
  - by rewrite Hparse.
Qed.


(** An error of [_compute_digest] is the error of a stat() call that is not
    FileNotFoundError. *)
Lemma compute_digest_error fs (paths : list Path) (e : exn) :
  indexer._compute_digest fs paths = Raise e ->
  forall msg, e <> FileNotFoundError msg.
Proof.
  unfold indexer._compute_digest.
  assert (Hfold : forall paths' hasher,
            foldl (indexer.digest_step fs) hasher paths' = Raise e ->
            hasher = Raise e \/ forall msg, e <> FileNotFoundError msg).
  { induction paths' as [|path paths' IH]; intros hasher; cbn [foldl];
      [by left|].
    intros [Hstep|Hother]%IH; [|by right].
    destruct hasher as [data|e']; [|by left].
    unfold indexer.digest_step in Hstep. cbn in Hstep.
    destruct (FileSystem.stat fs path) as [st|[]]; simplify_eq; by right. }
  destruct (foldl _ _ (indexer.sorted paths)) as [data|e'] eqn:Hdigest; [done|].
  intros [= ->]. by destruct (Hfold _ _ Hdigest).
Qed.


(** X6. load_index raises FileNotFoundError if and only if no image file is
    found under the data directory, and a load that raises, whatever the
    error, leaves the file system as it was. *)
Theorem load_index_errors fs (data_dir cache_dir thumb_dir : Path)
    (force_rebuild : bool) :
  let outcome :=
    indexer.load_index fs data_dir cache_dir thumb_dir force_rebuild in
  (indexer._iter_image_paths fs data_dir = []
   <-> exists msg, outcome.1 = Raise (FileNotFoundError msg))
  /\ (forall e, outcome.1 = Raise e -> outcome.2 = fs).
Proof.
  intros outcome. subst outcome. rewrite load_index_unfold. cbn zeta.
  case_decide as Hpaths.
  { split; [|done]. split; [by eexists | done]. }
  destruct (indexer._compute_digest fs _) as [digest|e] eqn:Hdigest.
  - destruct (if force_rebuild then None else cache_hit fs cache_dir digest);
      [|case_decide]; cbn; (split; [|done]);
      (split; [done | intros [msg Hmsg]; discriminate]).
  - cbn. split; [|done]. split; [done|]. intros [msg [= ->]].
    by destruct (compute_digest_error _ _ _ Hdigest msg).
Qed.

Lemma cached_records_stale index (stored digest : string) :
  stored <> digest ->
  indexer.cached_records (DatasetIndex.to_json_serializable index stored) digest
  = Ok None.
Proof.
  intros Hstale.
  unfold indexer.cached_records, DatasetIndex.to_json_serializable,
    indexer.json_get.
  cbn -[insert lookup mapM].
  repeat (rewrite lookup_insert_eq || rewrite lookup_insert_ne by done).
  cbn -[insert lookup mapM]. by rewrite bool_decide_eq_false_2.
Qed.

(** X7. A cache file that is absent, that cannot be read, or that holds the
    snapshot of another digest is never fatal and never used: load_index
    does what a forced rebuild does. *)
Theorem load_index_cache_miss fs (data_dir cache_dir thumb_dir : Path) :
  let cache_file := path_join cache_dir indexer.CACHE_FILENAME in
  FileSystem.read_json fs cache_file = None
  \/ (exists e, FileSystem.read_json fs cache_file = Some (Raise e))
  \/ (exists index stored,
        FileSystem.read_json fs cache_file
        = Some (Ok (DatasetIndex.to_json_serializable index stored))
        /\ indexer._compute_digest fs (indexer._iter_image_paths fs data_dir)
           <> Ok stored) ->
  indexer.load_index fs data_dir cache_dir thumb_dir false
  = indexer.load_index fs data_dir cache_dir thumb_dir true.
Proof.
  intros cache_file Hcache. rewrite !load_index_unfold. cbn zeta.
  case_decide; [done|].
  destruct (indexer._compute_digest fs _) as [digest|e] eqn:Hdigest; [|done].
  assert (cache_hit fs cache_dir digest = None) as ->; [|done].
  unfold cache_hit. fold cache_file.
  destruct Hcache as [->|[[e ->]|(index & stored & -> & Hstale)]]; [done..|].
  rewrite cached_records_stale; [done|]. congruence.
Qed.

(** A successful load is a cache hit, which writes nothing, or a rebuild. *)
Lemma load_index_ok fs (data_dir cache_dir thumb_dir : Path)
    (force_rebuild : bool) index fs' :
  indexer.load_index fs data_dir cache_dir thumb_dir force_rebuild
  = (Ok index, fs') ->
  let paths := indexer._iter_image_paths fs data_dir in
  paths <> []
  /\ exists digest,
       indexer._compute_digest fs paths = Ok digest
       /\ ((exists records,
              force_rebuild = false
              /\ cache_hit fs cache_dir digest = Some records
              /\ index = indexer._build_dataset_index records cache_dir thumb_dir
              /\ fs' = fs)
           \/ (parsed_records paths <> []
               /\ index = indexer._build_dataset_index (parsed_records paths)
                            cache_dir thumb_dir
               /\ fs' = FileSystem.write_json fs
                          (path_join cache_dir indexer.CACHE_FILENAME)
                          (DatasetIndex.to_json_serializable index digest))).
Proof.
  rewrite load_index_unfold. cbn zeta.
  case_decide as Hpaths; [done|].
  destruct (indexer._compute_digest fs _) as [digest|e]; [|done].
  intros Hload. split; [done|]. exists digest. split; [done|].
  destruct force_rebuild.
  - case_decide; [done|]. injection Hload as <- <-. by right.
  - destruct (cache_hit fs cache_dir digest) as [records|] eqn:Hhit.
    + injection Hload as <- <-. left. by exists records.
    + case_decide; [done|]. injection Hload as <- <-. by right.
Qed.

Lemma cache_hit_nonempty fs (cache_dir : Path) (digest : string)
    (records : list CarImage.t) :
  cache_hit fs cache_dir digest = Some records -> records <> [].
Proof.
  unfold cache_hit.
  destruct (FileSystem.read_json fs _) as [[payload|e]|]; try done.
  destruct (indexer.cached_records payload digest) as [[[|car cars]|]|e];
    try done.
  by intros [= <-].
Qed.

(** X8. Loading again after a successful load, forced or not, is a cache
    hit: the second load returns the same index and writes nothing. *)
Theorem load_index_twice fs (data_dir cache_dir thumb_dir : Path)
    (force_rebuild : bool) index fs' :
  indexer.load_index fs data_dir cache_dir thumb_dir force_rebuild
  = (Ok index, fs') ->
  indexer.load_index fs' data_dir cache_dir thumb_dir false = (Ok index, fs').
Proof.
  intros Hload.
  destruct (load_index_ok _ _ _ _ _ _ _ Hload)
    as (Hpaths & digest & Hdigest & [(records & -> & Hhit & -> & ->)
                                    |(Hrecords & Hindex & ->)]).
  - rewrite load_index_unfold. cbn zeta.
    rewrite decide_False by done. by rewrite Hdigest, Hhit.
  - rewrite load_index_unfold. cbn zeta.
    change (indexer._iter_image_paths (FileSystem.write_json fs _ _) data_dir)
      with (indexer._iter_image_paths fs data_dir).
    rewrite decide_False by done.
    change (indexer._compute_digest (FileSystem.write_json fs _ _))
      with (indexer._compute_digest fs).
    rewrite Hdigest.
    set (records := parsed_records (indexer._iter_image_paths fs data_dir)) in *.
    clearbody records.
    assert (cache_hit (FileSystem.write_json fs
                         (path_join cache_dir indexer.CACHE_FILENAME)
                         (DatasetIndex.to_json_serializable index digest))
                      cache_dir digest
            = Some records) as ->.
    { unfold cache_hit, FileSystem.write_json. cbn.
      rewrite decide_True by done. rewrite cached_records_to_json.
      rewrite Hindex, build_dataset_index_records.
      by destruct records. }
    by rewrite <- Hindex.
Qed.

(** X9. An index that load_index returns is never empty, and it is the
    index that _build_dataset_index makes of its own record list, so its
    groups hold records of the index only. *)
Theorem load_index_nonempty fs (data_dir cache_dir thumb_dir : Path)
    (force_rebuild : bool) index fs' :
  indexer.load_index fs data_dir cache_dir thumb_dir force_rebuild
  = (Ok index, fs') ->
  DatasetIndex.records index <> []
  /\ index = indexer._build_dataset_index (DatasetIndex.records index)
               cache_dir thumb_dir
  /\ groups_within_records index.
Proof.
  intros Hload.
  destruct (load_index_ok _ _ _ _ _ _ _ Hload)
    as (Hpaths & digest & Hdigest & [(records & -> & Hhit & -> & ->)
                                    |(Hrecords & -> & ->)]);
    rewrite build_dataset_index_records;
    (split; [|split; [done | apply build_dataset_index_within]]);
    [by eapply cache_hit_nonempty | done].
Qed.

(** X10. After a forced rebuild every record of the index stands for an
    image file that was found: its path is the file's path and its id the
    file's stem.  So the record ids are pairwise distinct when the stems of
    the image files are. *)
Theorem load_index_ids fs (data_dir cache_dir thumb_dir : Path) index fs' :
  indexer.load_index fs data_dir cache_dir thumb_dir true = (Ok index, fs') ->
  (forall car,
     car ∈ DatasetIndex.records index ->
     CarImage.path car ∈ indexer._iter_image_paths fs data_dir
     /\ CarImage.id car = path_stem (CarImage.path car))
  /\ (NoDup (path_stem <$> indexer._iter_image_paths fs data_dir) ->
      NoDup (CarImage.id <$> DatasetIndex.records index)).
Proof.
  intros Hload.
  destruct (load_index_ok _ _ _ _ _ _ _ Hload)
    as (Hpaths & digest & Hdigest & [(records & [=] & _)|(Hrecords & -> & _)]).
  rewrite build_dataset_index_records.
  generalize (indexer._iter_image_paths fs data_dir). clear. intros paths.
  split.
  - intros car (path & Hin & Hparse)%elem_of_parsed_records.
    destruct (parse_filename_id _ _ Hparse) as [Hid Hpath]. by rewrite Hpath.
  - unfold parsed_records.
    induction paths as [|path paths IH]; cbn; [constructor|].
    intros [Hnotin Hnodup]%NoDup_cons.
    destruct (parse_outcome path) as [car|] eqn:Hparse; [|by apply IH].
    cbn. apply NoDup_cons. split; [|by apply IH].
    intros (car' & Hid & (path' & Hin & Hparse')%elem_of_parsed_records)
      %list_elem_of_fmap.
    apply Hnotin. unfold parse_outcome in Hparse.
    destruct (parser.parse_filename path) as [[car''|]|e] eqn:Hparse'';
      simplify_eq.
    destruct (parse_filename_id _ _ Hparse'') as [Hid1 _].
    destruct (parse_filename_id _ _ Hparse') as [Hid2 _].
    apply list_elem_of_fmap. exists path'. split; [congruence | done].
Qed.
End LoadMore.

(** ** More on the lookups of the index *)

Section LookupMore.
Context `{Platform}.

(** X11. On a built index the lookups never fail: get_by_make gives the
    records of that make, in order, and the empty list for a make without
    records, and get_by_make_model gives the records of that model among
    those that get_by_make gives for the make. *)
Theorem get_by_make_model_refines (records : list CarImage.t)
    (cache_dir thumb_dir : Path) (make model : string) :
  let index := indexer._build_dataset_index records cache_dir thumb_dir in
  DatasetIndex.get_by_make index make
  = filter (fun car => CarImage.make car = make) records
  /\ DatasetIndex.get_by_make_model index make model
     = filter (fun car => CarImage.model car = model)
              (DatasetIndex.get_by_make index make)
  /\ (DatasetIndex.get_by_make index make = []
      <-> forall car, car ∈ records -> CarImage.make car <> make).
Proof.
  intros index.
  destruct (build_dataset_index_groups records cache_dir thumb_dir)
    as [Hmake Hmodel].
  fold index in Hmake, Hmodel.
  assert (Hgroup : forall {K} `{EqDecision K} (key_of : CarImage.t -> K) key,
            default [] (group_of key_of key records)
            = filter (fun car => key_of car = key) records).
  { intros K HK key_of key. unfold group_of.
    by destruct (filter _ records). }
  assert (Hby_make : DatasetIndex.get_by_make index make
                     = filter (fun car => CarImage.make car = make) records).
  { unfold DatasetIndex.get_by_make. by rewrite Hmake, Hgroup. }
  split; [done|]. split.
  - unfold DatasetIndex.get_by_make_model.
    rewrite Hby_make, Hmodel, Hgroup, list_filter_filter.
    apply list_filter_iff. intros car.
    split; [intros [= -> ->]; done | intros [-> ->]; done].
  - rewrite Hby_make. split.
    + intros Hnil car Hin Hcar.
      assert (car ∈ filter (fun car => CarImage.make car = make) records) as Hmem
        by (by apply list_elem_of_filter).
      rewrite Hnil in Hmem. by apply not_elem_of_nil in Hmem.
    + intros Hnone. apply filter_none. intros car Hin. by apply Hnone.
Qed.
End LookupMore.

(** ** More on the answer choices: any index *)

(** No distractor was added. *)
Ltac nothing_new :=
  exists []; split;
  [by rewrite app_nil_r | intros ? Hin; by apply not_elem_of_nil in Hin].

Section ChoicesAnyIndex.
Context `{Platform}.
Variables (correct : CarImage.t) (index : DatasetIndex.t)
          (mode : QuizMode.t) (total_choices : Z).
Hypothesis Htotal : 2 <= total_choices.

#[local] Abbreviation label := (fun car => options.format_label car mode).
#[local] Abbreviation quota_met :=
  (fun acc : options.picks =>
     total_choices - 1 <= Z.of_nat (length (options.distractors acc))).

(** What the tier loops keep true, whatever the index. *)
Record tier_ok (acc : options.picks) : Prop := {
  tier_candidates :
    forall car, car ∈ options.distractors acc -> candidate correct index car;
  tier_seen_id : CarImage.id correct ∈ options.seen_ids acc;
  tier_seen_labels :
    options.seen_labels acc
    = {[label correct]} ∪ list_to_set (label <$> options.distractors acc);
  tier_labels : NoDup (label correct :: (label <$> options.distractors acc));
  tier_length : Z.of_nat (length (options.distractors acc)) <= total_choices - 1
}.

Lemma take_from_pool_any (pool_list : list CarImage.t) (acc : options.picks) :
  (forall car, car ∈ pool_list -> candidate correct index car) ->
  tier_ok acc ->
  let acc' := options.take_from_pool mode total_choices pool_list acc in
  tier_ok acc'
  /\ options.seen_labels acc ⊆ options.seen_labels acc'
  /\ (exists new,
        options.distractors acc' = options.distractors acc ++ new
        /\ forall car, car ∈ new -> car ∈ pool_list)
  /\ (quota_met acc'
      \/ forall car, car ∈ pool_list -> label car ∈ options.seen_labels acc').
Proof.
  revert acc.
  induction pool_list as [|car rest IH]; intros acc Hpool Hok; cbn.
  { split; [done|]. split; [done|]. split.
    - nothing_new.
    - right. intros car Hin. by apply not_elem_of_nil in Hin. }
  assert (Hrest : forall car', car' ∈ rest -> candidate correct index car')
    by (intros car' Hin; by apply Hpool, list_elem_of_further).
  destruct (Z.geb_spec (Z.of_nat (length (options.distractors acc)))
                       (total_choices - 1)) as [Hfull|Hroom].
  { split; [done|]. split; [done|]. split; [|left; cbn; lia].
    nothing_new. }
  case_decide as Hlabel.
  - destruct (IH acc Hrest Hok) as (Hok' & Hsub & (new & Hnew & Hfrom) & Hdone).
    split; [done|]. split; [done|]. split.
    + exists new. split; [done|]. intros car' Hin.
      by apply list_elem_of_further, Hfrom.
    + destruct Hdone as [Hdone|Hdone]; [by left|]. right.
      intros car' [->|Hin]%elem_of_cons; [by apply Hsub | by apply Hdone].
  - set (acc1 := {| options.distractors := options.distractors acc ++ [car];
                    options.seen_ids := options.seen_ids acc ∪ {[CarImage.id car]};
                    options.seen_labels :=
                      options.seen_labels acc ∪ {[label car]} |}).
    assert (Hok1 : tier_ok acc1).
    { destruct Hok as [Hcand Hid Hseen Hnodup Hlen]. split; cbn.
      - intros car' [Hin| ->%list_elem_of_singleton]%elem_of_app;
          [by apply Hcand | apply Hpool, list_elem_of_here].
      - by apply elem_of_union_l.
      - rewrite Hseen, fmap_app, list_to_set_app_L. cbn.
        by rewrite (right_id_L ∅ (∪)), (assoc_L (∪)).
      - rewrite fmap_app. cbn. rewrite app_comm_cons.
        apply NoDup_app. split; [done|]. split; [|apply NoDup_singleton].
        intros l Hl ->%list_elem_of_singleton. apply Hlabel. rewrite Hseen.
        apply elem_of_cons in Hl as [->|Hl];
          [by apply elem_of_union_l, elem_of_singleton
          |by apply elem_of_union_r, elem_of_list_to_set].
      - rewrite length_app. cbn. lia. }
    destruct (IH acc1 Hrest Hok1) as (Hok' & Hsub & (new & Hnew & Hfrom) & Hdone).
    assert (Hsub1 : options.seen_labels acc ⊆ options.seen_labels
                      (options.take_from_pool mode total_choices rest acc1)).
    { intros l Hl. apply Hsub. unfold acc1. cbn. by apply elem_of_union_l. }
    split; [done|]. split; [done|]. split.
    + exists (car :: new). split.
      * rewrite Hnew. cbn. by rewrite <- app_assoc.
      * intros car' [->|Hin]%elem_of_cons;
          [apply list_elem_of_here | by apply list_elem_of_further, Hfrom].
    + destruct Hdone as [Hdone|Hdone]; [by left|]. right.
      intros car' [->|Hin]%elem_of_cons; [|by apply Hdone].
      apply Hsub. unfold acc1. cbn. by apply elem_of_union_r, elem_of_singleton.
Qed.

Lemma visit_pools_any (pools : list (list CarImage.t)) (acc : options.picks)
    (rng : Rng) :
  (forall pool car, pool ∈ pools -> car ∈ pool -> candidate correct index car) ->
  tier_ok acc ->
  let acc' := (options.visit_pools mode total_choices pools acc rng).1 in
  tier_ok acc'
  /\ options.seen_labels acc ⊆ options.seen_labels acc'
  /\ (exists new,
        options.distractors acc' = options.distractors acc ++ new
        /\ forall car, car ∈ new -> exists pool, pool ∈ pools /\ car ∈ pool)
  /\ (quota_met acc'
      \/ forall pool car,
           pool ∈ pools -> car ∈ pool -> label car ∈ options.seen_labels acc').
Proof.
  revert acc rng.
  induction pools as [|pool rest IH]; intros acc rng Hpools Hok; cbn.
  { split; [done|]. split; [done|]. split.
    - nothing_new.
    - right. intros pool car Hin. by apply not_elem_of_nil in Hin. }
  pose proof (shuffle_permutation rng pool) as Hperm.
  destruct (shuffle rng pool) as [pool_list rng']. cbn in Hperm.
  destruct (take_from_pool_any pool_list acc)
    as (Hok1 & Hsub1 & (new1 & Hnew1 & Hfrom1) & Hdone1); [|done|].
  { intros car Hin. apply (Hpools pool); [apply list_elem_of_here|].
    by rewrite <- Hperm. }
  set (acc1 := options.take_from_pool mode total_choices pool_list acc) in *.
  destruct (Z.geb_spec (Z.of_nat (length (options.distractors acc1)))
                       (total_choices - 1)) as [Hfull|Hroom]; cbn.
  { split; [done|]. split; [done|]. split; [|left; cbn; lia].
    exists new1. split; [done|]. intros car Hin. exists pool.
    split; [apply list_elem_of_here|]. rewrite <- Hperm. by apply Hfrom1. }
  destruct (IH acc1 rng') as (Hok2 & Hsub2 & (new2 & Hnew2 & Hfrom2) & Hdone2);
    [|done|].
  { intros pool' car Hpool'. by apply Hpools, list_elem_of_further. }
  split; [done|]. split; [by etrans|]. split.
  - exists (new1 ++ new2). split; [by rewrite Hnew2, Hnew1, app_assoc|].
    intros car [Hin|Hin]%elem_of_app.
    + exists pool. split; [apply list_elem_of_here|].
      rewrite <- Hperm. by apply Hfrom1.
    + destruct (Hfrom2 car Hin) as (pool' & Hpool' & Hcar).
      exists pool'. split; [by apply list_elem_of_further | done].
  - destruct Hdone2 as [Hdone2|Hdone2]; [by left|]. right.
    intros pool' car [->|Hpool']%elem_of_cons Hcar; [|by eapply Hdone2].
    destruct Hdone1 as [Hdone1|Hdone1]; [lia|].
    apply Hsub2, Hdone1. by rewrite Hperm.
Qed.

Lemma fill_remaining_any (remaining : list CarImage.t) (acc : options.picks) :
  Z.of_nat (length (options.distractors acc)) <= total_choices - 1 ->
  let acc' := options.fill_remaining total_choices remaining acc in
  Z.of_nat (length (options.distractors acc')) <= total_choices - 1
  /\ exists new,
       options.distractors acc' = options.distractors acc ++ new
       /\ forall car, car ∈ new -> car ∈ remaining.
Proof.
  revert acc. induction remaining as [|car rest IH]; intros acc Hlen; cbn.
  { split; [done|]. nothing_new. }
  destruct (Z.geb_spec (Z.of_nat (length (options.distractors acc)))
                       (total_choices - 1)) as [Hfull|Hroom].
  { split; [done|]. nothing_new. }
  edestruct (IH {| options.distractors := options.distractors acc ++ [car];
                   options.seen_ids := options.seen_ids acc ∪ {[CarImage.id car]};
                   options.seen_labels := options.seen_labels acc |})
    as (Hlen' & new & Hnew & Hfrom).
  { cbn. rewrite length_app. cbn. lia. }
  split; [done|]. exists (car :: new). split.
  - rewrite Hnew. cbn. by rewrite <- app_assoc.
  - intros car' [->|Hin]%elem_of_cons;
      [apply list_elem_of_here | by apply list_elem_of_further, Hfrom].
Qed.

Lemma candidate_pools_any (pool : list CarImage.t) (car : CarImage.t) :
  pool ∈ options.candidate_pools correct index mode {[CarImage.id correct]} ->
  car ∈ pool -> candidate correct index car.
Proof.
  unfold options.candidate_pools, DatasetIndex.get_random_pool, candidate.
  intros Hpool Hcar.
  destruct mode;
    repeat (apply elem_of_cons in Hpool as [->|Hpool]);
    try (by apply not_elem_of_nil in Hpool);
    apply list_elem_of_filter in Hcar as [Hkeep Hin];
    try destruct Hkeep as [Hkeep _];
    (split; [intros Heq; apply Hkeep; by apply elem_of_singleton | tauto]).
Qed.

#[local] Abbreviation start :=
  {| options.distractors := [];
     options.seen_ids := {[CarImage.id correct]};
     options.seen_labels := {[label correct]} |}.
#[local] Abbreviation pools :=
  (options.candidate_pools correct index mode {[CarImage.id correct]}).

Lemma start_ok : tier_ok start.
Proof.
  split; cbn.
  - intros car Hin. by apply not_elem_of_nil in Hin.
  - by apply elem_of_singleton.
  - by rewrite (right_id_L ∅ (∪)).
  - apply NoDup_singleton.
  - lia.
Qed.

(** The choices are the correct record, the distractors of the tiers and
    those of the final pass, rearranged. *)
Lemma generate_choices_shape (rng : option Rng) (unseeded : Rng) :
  let visited :=
    (options.visit_pools mode total_choices pools start
       (default unseeded rng)).1 in
  exists extra cars,
    (options.generate_choices correct index mode total_choices rng unseeded).1
    = Ok (options.to_choice mode <$> cars)
    /\ cars ≡ₚ correct :: options.distractors visited ++ extra
    /\ tier_ok visited
    /\ Z.of_nat (length (options.distractors visited ++ extra))
       <= total_choices - 1
    /\ (forall car, car ∈ extra -> candidate correct index car)
    /\ (extra = [] \/ ~ quota_met visited).
Proof.
  intros visited.
  destruct (visit_pools_any pools start (default unseeded rng)
              candidate_pools_any start_ok) as (Hok & _).
  fold visited in Hok.
  unfold options.generate_choices.
  rewrite (proj2 (Z.ltb_ge total_choices 2) Htotal).
  cbn [options.seen_ids].
  destruct (options.visit_pools mode total_choices pools start
              (default unseeded rng)) as [acc rng1] eqn:Hvisit.
  cbn [fst] in visited. subst visited.
  assert (Hfinal : exists extra final rng2,
            (if Z.of_nat (length (options.distractors acc)) <? total_choices - 1
             then
               let '(remaining, rng) :=
                 shuffle rng1
                   (filter (fun car => CarImage.id car ∉ options.seen_ids acc)
                           (DatasetIndex.get_random_pool index)) in
               (options.fill_remaining total_choices remaining acc, rng)
             else (acc, rng1)) = (final, rng2)
            /\ options.distractors final = options.distractors acc ++ extra
            /\ Z.of_nat (length (options.distractors final)) <= total_choices - 1
            /\ (forall car, car ∈ extra -> candidate correct index car)
            /\ (extra = [] \/ ~ quota_met acc)).
  { destruct (Z.ltb_spec (Z.of_nat (length (options.distractors acc)))
                         (total_choices - 1)) as [Hshort|Hfull].
    - unfold DatasetIndex.get_random_pool.
      set (remaining := filter _ (DatasetIndex.records index)).
      pose proof (shuffle_permutation rng1 remaining) as Hperm.
      destruct (shuffle rng1 remaining) as [shuffled rng2]. cbn in Hperm.
      destruct (fill_remaining_any shuffled acc (tier_length acc Hok))
        as (Hlen & extra & Hextra & Hfrom).
      exists extra, (options.fill_remaining total_choices shuffled acc), rng2.
      split; [done|]. split; [done|]. split; [done|]. split; [|right; cbn; lia].
      intros car Hin. apply Hfrom in Hin. rewrite Hperm in Hin.
      apply list_elem_of_filter in Hin as [Hnew Hin]. split; [|by left].
      intros Heq. apply Hnew. rewrite Heq. apply (tier_seen_id acc Hok).
    - exists [], acc, rng1. rewrite app_nil_r.
      split; [done|]. split; [done|]. split; [apply (tier_length acc Hok)|].
      split; [|by left]. intros car Hin. by apply not_elem_of_nil in Hin. }
  destruct Hfinal as (extra & final & rng2 & -> & Hfinal & Hlen & Hextra & Hran).
  assert (Hslice : options.slice_to (options.distractors final) (total_choices - 1)
                   = options.distractors final).
  { unfold options.slice_to. rewrite (proj2 (Z.leb_le 0 _)) by lia.
    apply take_ge. lia. }
  rewrite Hslice.
  pose proof (shuffle_permutation rng2 (correct :: options.distractors final))
    as Hperm.
  destruct (shuffle rng2 _) as [cars rng3]. cbn in Hperm. cbn [fst].
  exists extra, cars. rewrite <- Hfinal. done.
Qed.

Lemma to_choice_ids (cars : list CarImage.t) :
  AnswerChoice.id <$> (options.to_choice mode <$> cars) = CarImage.id <$> cars.
Proof. rewrite <- list_fmap_compose. by apply list_fmap_ext. Qed.

Lemma to_choice_labels (cars : list CarImage.t) :
  AnswerChoice.label <$> (options.to_choice mode <$> cars) = label <$> cars.
Proof. rewrite <- list_fmap_compose. by apply list_fmap_ext. Qed.

(** The choices are made of cars: the correct record once, and candidates. *)
Lemma generate_choices_cars (rng : option Rng) (unseeded : Rng) :
  exists cars rng',
    options.generate_choices correct index mode total_choices rng unseeded
    = (Ok (options.to_choice mode <$> cars), rng')
    /\ correct ∈ cars
    /\ 1 <= Z.of_nat (length cars) <= total_choices
    /\ forall car, car ∈ cars -> car = correct \/ candidate correct index car.
Proof.
  destruct (generate_choices_shape rng unseeded)
    as (extra & cars & Hres & Hperm & Hok & Hlen & Hextra & _).
  set (visited := (options.visit_pools _ _ _ _ _).1) in *.
  destruct (options.generate_choices _ _ _ _ _ _) as [generated rng'].
  cbn [fst] in Hres. subst generated.
  exists cars, rng'. split; [done|].
  split; [rewrite Hperm; apply list_elem_of_here|].
  split; [rewrite Hperm; cbn [length]; lia|].
  intros car Hin. rewrite Hperm in Hin.
  apply elem_of_cons in Hin as [->|Hin]; [by left | right].
  apply elem_of_app in Hin as [Hin|Hin];
    [by apply (tier_candidates visited Hok) | by apply Hextra].
Qed.

(** X12. Whatever the index holds, for total_choices >= 2 generate_choices
    returns between 1 and total_choices choices; the choice of the correct
    record is among them and is the only choice with its id; every choice
    carries the id and the label of its own car, and every other car comes
    from the index. *)
Theorem generate_choices_any_index (rng : option Rng) (unseeded : Rng) :
  exists choices,
    (options.generate_choices correct index mode total_choices rng unseeded).1
    = Ok choices
    /\ 1 <= Z.of_nat (length choices) <= total_choices
    /\ options.to_choice mode correct ∈ choices
    /\ length (filter (fun choice =>
                         AnswerChoice.id choice = CarImage.id correct) choices)
       = 1%nat
    /\ forall choice,
         choice ∈ choices ->
         choice = options.to_choice mode (AnswerChoice.car choice)
         /\ (AnswerChoice.car choice = correct
             \/ candidate correct index (AnswerChoice.car choice)).
Proof.
  destruct (generate_choices_shape rng unseeded)
    as (extra & cars & Hres & Hperm & Hok & Hlen & Hextra & _).
  set (visited := (options.visit_pools _ _ _ _ _).1) in *.
  assert (Hcand : forall car,
            car ∈ options.distractors visited ++ extra ->
            candidate correct index car).
  { intros car [Hin|Hin]%elem_of_app;
      [by apply (tier_candidates visited Hok) | by apply Hextra]. }
  exists (options.to_choice mode <$> cars). split; [done|].
  split; [rewrite length_fmap, Hperm; cbn [length]; lia|].
  split.
  { apply list_elem_of_fmap_2. rewrite Hperm. apply list_elem_of_here. }
  split.
  { rewrite Hperm, fmap_cons, filter_cons_True by done. cbn [length]. f_equal.
    rewrite filter_none; [done|].
    intros choice (car & -> & Hin)%list_elem_of_fmap. cbn.
    by destruct (Hcand car Hin). }
  intros choice (car & -> & Hin)%list_elem_of_fmap. cbn. split; [done|].
  rewrite Hperm in Hin. apply elem_of_cons in Hin as [->|Hin];
    [by left | right; by apply Hcand].
Qed.

Lemma all_pool_visited :
  filter (fun car => CarImage.id car ∉ ({[CarImage.id correct]} : gset string))
         (DatasetIndex.records index) ∈ pools.
Proof.
  unfold options.candidate_pools, DatasetIndex.get_random_pool.
  apply elem_of_app. right. apply list_elem_of_here.
Qed.

(** X13. Two choices have the same label only when the labels have run out:
    either the labels of the returned choices are pairwise distinct, or the
    label of every record of the index with another id than the correct
    record's is the label of a choice. *)
Theorem generate_choices_labels (rng : option Rng) (unseeded : Rng) :
  exists choices,
    (options.generate_choices correct index mode total_choices rng unseeded).1
    = Ok choices
    /\ (NoDup (AnswerChoice.label <$> choices)
        \/ forall car,
             car ∈ DatasetIndex.records index ->
             CarImage.id car <> CarImage.id correct ->
             label car ∈ AnswerChoice.label <$> choices).
Proof.
  destruct (generate_choices_shape rng unseeded)
    as (extra & cars & Hres & Hperm & Hok & Hlen & Hextra & Hran).
  destruct (visit_pools_any pools start (default unseeded rng)
              candidate_pools_any start_ok) as (_ & _ & _ & Hdone).
  set (visited := (options.visit_pools _ _ _ _ _).1) in *.
  exists (options.to_choice mode <$> cars). split; [done|].
  rewrite to_choice_labels.
  destruct Hdone as [Hfull|Hdone].
  - left. destruct Hran as [->|Hran]; [|done].
    rewrite Hperm, app_nil_r. apply (tier_labels visited Hok).
  - right. intros car Hin Hid.
    assert (Hseen : label car ∈ options.seen_labels visited).
    { apply (Hdone _ car all_pool_visited), list_elem_of_filter.
      split; [|done]. intros Heq%elem_of_singleton. by apply Hid. }
    rewrite (tier_seen_labels visited Hok) in Hseen.
    rewrite Hperm, fmap_cons, fmap_app.
    apply elem_of_union in Hseen as [->%elem_of_singleton|Hseen];
      [apply list_elem_of_here|].
    apply list_elem_of_further, elem_of_app. left.
    by apply elem_of_list_to_set in Hseen.
Qed.

(** The first pool is used up before another pool is visited. *)
Lemma visit_first_pool (pool : list CarImage.t) (rest : list (list CarImage.t))
    (rng : Rng) :
  (forall pool' car,
     pool' ∈ pool :: rest -> car ∈ pool' -> candidate correct index car) ->
  let acc := (options.visit_pools mode total_choices (pool :: rest) start rng).1 in
  (quota_met acc /\ forall car, car ∈ options.distractors acc -> car ∈ pool)
  \/ forall car, car ∈ pool -> label car ∈ options.seen_labels acc.
Proof.
  intros Hpools. cbn.
  pose proof (shuffle_permutation rng pool) as Hperm.
  destruct (shuffle rng pool) as [pool_list rng']. cbn in Hperm.
  destruct (take_from_pool_any pool_list start)
    as (Hok1 & _ & (new1 & Hnew1 & Hfrom1) & Hdone1); [|apply start_ok|].
  { intros car Hin. apply (Hpools pool); [apply list_elem_of_here|].
    by rewrite <- Hperm. }
  set (acc1 := options.take_from_pool mode total_choices pool_list start) in *.
  destruct (Z.geb_spec (Z.of_nat (length (options.distractors acc1)))
                       (total_choices - 1)) as [Hfull|Hroom]; cbn.
  - left. split; [lia|]. intros car Hin. rewrite Hnew1 in Hin. cbn in Hin.
    rewrite <- Hperm. by apply Hfrom1.
  - right. intros car Hin.
    destruct (visit_pools_any rest acc1 rng') as (_ & Hsub & _); [|done|].
    { intros pool' car' Hpool'. by apply Hpools, list_elem_of_further. }
    apply Hsub. destruct Hdone1 as [Hdone1|Hdone1]; [lia|].
    apply Hdone1. by rewrite Hperm.
Qed.

(** X14. The first tier is used up before any other record is taken: with
    pool the first candidate pool of the mode (same make and model in the
    modes with a model, another make in mode make), either every choice but
    the correct one is a car of that pool, or the label of every car of the
    pool is the label of a choice. *)
Theorem generate_choices_first_tier (rng : option Rng) (unseeded : Rng)
    (pool : list CarImage.t) :
  head pools = Some pool ->
  exists choices,
    (options.generate_choices correct index mode total_choices rng unseeded).1
    = Ok choices
    /\ ((forall choice,
           choice ∈ choices ->
           choice = options.to_choice mode correct
           \/ AnswerChoice.car choice ∈ pool)
        \/ forall car,
             car ∈ pool -> label car ∈ AnswerChoice.label <$> choices).
Proof.
  intros Hhead.
  destruct (generate_choices_shape rng unseeded)
    as (extra & cars & Hres & Hperm & Hok & Hlen & Hextra & Hran).
  destruct pools as [|pool' rest] eqn:Hpools; [done|].
  injection Hhead as ->.
  destruct (visit_first_pool pool rest (default unseeded rng)) as [[Hfull Hfrom]|Hdone].
  { rewrite <- Hpools. apply candidate_pools_any. }
  - exists (options.to_choice mode <$> cars). split; [done|]. left.
    destruct Hran as [->|Hran]; [|done]. rewrite app_nil_r in Hperm.
    intros choice (car & -> & Hin)%list_elem_of_fmap. cbn.
    rewrite Hperm in Hin. apply elem_of_cons in Hin as [->|Hin];
      [by left | right; by apply Hfrom].
  - exists (options.to_choice mode <$> cars). split; [done|]. right.
    intros car Hin. apply Hdone in Hin.
    rewrite (tier_seen_labels _ Hok) in Hin.
    rewrite to_choice_labels, Hperm, fmap_cons, fmap_app.
    apply elem_of_union in Hin as [->%elem_of_singleton|Hin];
      [apply list_elem_of_here|].
    apply list_elem_of_further, elem_of_app. left.
    by apply elem_of_list_to_set in Hin.
Qed.
End ChoicesAnyIndex.

(** ** More on scoring *)

(** Refutes an equation between two different floating-point constants. *)
Ltac float_discriminate H :=
  match type of H with
  | ?x = ?y =>
      apply (f_equal (fun z => PrimFloat.eqb z y)) in H;
      vm_compute in H; discriminate H
  end.

Section ScoringMore.
Context `{Platform}.
Implicit Types correct guess : CarImage.t.

(** [_compute_score] as a function of the three comparisons. *)
Lemma compute_score_flags correct guess (mode : QuizMode.t) :
  exists make_eq model_eq year_eq : bool,
    make_eq = bool_decide (CarImage.make guess = CarImage.make correct)
    /\ model_eq = bool_decide (CarImage.model guess = CarImage.model correct)
    /\ year_eq = bool_decide (CarImage.year guess = CarImage.year correct)
    /\ engine._compute_score correct guess mode
       = {| ScoreDetail.points :=
              match mode with
              | QuizMode.MAKE => if make_eq then 1.0 else 0.0
              | QuizMode.MAKE_MODEL =>
                  if make_eq then
                    if make_eq && model_eq then (0.0 + 0.5 + 0.5) else (0.0 + 0.5)
                  else 0.0
              | QuizMode.MAKE_MODEL_YEAR =>
                  if make_eq then
                    if make_eq && model_eq then
                      if make_eq && model_eq && year_eq
                      then (0.0 + 0.3 + 0.4 + 0.3) else (0.0 + 0.3 + 0.4)
                    else (0.0 + 0.3)
                  else 0.0
              end%float;
            ScoreDetail.max_points := 1.0%float;
            ScoreDetail.make_correct := make_eq;
            ScoreDetail.model_correct := make_eq && model_eq;
            ScoreDetail.year_correct := make_eq && model_eq && year_eq;
            ScoreDetail.mode := mode |}.
Proof. by do 3 eexists. Qed.

(** X15. The points lie between 0 and max_points; they are max_points if
    and only if the guess is right in all that the mode asks for (the make,
    the make and model, or the make, model and year), and 0 if and only if
    the make is wrong. *)
Theorem compute_score_full_credit correct guess (mode : QuizMode.t) :
  let detail := engine._compute_score correct guess mode in
  PrimFloat.leb 0 (ScoreDetail.points detail) = true
  /\ PrimFloat.leb (ScoreDetail.points detail) (ScoreDetail.max_points detail)
     = true
  /\ (ScoreDetail.points detail = ScoreDetail.max_points detail
      <-> required_flag detail = true)
  /\ (ScoreDetail.points detail = 0%float
      <-> ScoreDetail.make_correct detail = false).
Proof.
  destruct (compute_score_flags correct guess mode)
    as (make_eq & model_eq & year_eq & _ & _ & _ & ->).
  unfold required_flag. cbn.
  destruct mode, make_eq, model_eq, year_eq; cbn;
    (split; [reflexivity|]); (split; [reflexivity|]);
    split; (split; intros Heq; try reflexivity; try discriminate Heq;
            float_discriminate Heq).
Qed.

(** X16. In mode make a guess scores 1.0 when its make is right and 0.0
    otherwise.  In mode make+model it scores 0.0 when the make is wrong, 0.5
    when the make is right and the model wrong, and 1.0 when both are right,
    whatever the years. *)
Theorem compute_score_make_modes correct guess :
  let by_make := engine._compute_score correct guess QuizMode.MAKE in
  let by_model := engine._compute_score correct guess QuizMode.MAKE_MODEL in
  (CarImage.make guess = CarImage.make correct ->
     ScoreDetail.points by_make = 1.0%float
     /\ (CarImage.model guess = CarImage.model correct ->
           ScoreDetail.points by_model = 1.0%float)
     /\ (CarImage.model guess <> CarImage.model correct ->
           ScoreDetail.points by_model = 0.5%float))
  /\ (CarImage.make guess <> CarImage.make correct ->
        ScoreDetail.points by_make = 0.0%float
        /\ ScoreDetail.points by_model = 0.0%float).
Proof.
  unfold engine._compute_score; cbn. split.
  - intros Hmake. rewrite (bool_decide_eq_true_2 _ Hmake); cbn.
    split; [reflexivity|]. split; intros Hmodel.
    + by rewrite (bool_decide_eq_true_2 _ Hmodel).
    + by rewrite (bool_decide_eq_false_2 _ Hmodel).
  - intros Hmake. by rewrite (bool_decide_eq_false_2 _ Hmake).
Qed.
End ScoringMore.

(** ** More on the quiz session *)

Section SessionMore.
Context `{Platform}.
Implicit Types (state : QuizState.t) (index : DatasetIndex.t)
               (question : QuizQuestion.t).



(** X18. After an accepted answer the quiz is completed exactly when it was
    completed before, or no question remains, or the time is up. *)
Theorem submit_answer_completes state (choice_id : string) (now : float)
    (detail : ScoreDetail.t) state' :
  engine.submit_answer state choice_id now = (Ok detail, state') ->
  QuizState.completed state'
  = QuizState.completed state
    || bool_decide (engine.remaining_questions state' = 0)
    || engine.is_time_up state' now.
Proof.
  unfold engine.submit_answer.
  destruct (QuizState.current_question state) as [question|]; [|done].
  destruct (engine._find_choice question choice_id) as [selected|]; [|done].
  set (base := QuizState.set_current_question None _).
  assert (Hcompleted : QuizState.completed base = QuizState.completed state)
    by reflexivity.
  clearbody base. intros [= _ <-].
  assert (Hremaining : forall state0,
            bool_decide (engine.remaining_questions state0 = 0)
            = (Z.of_nat (length (QuizState.history state0))
                 >=? QuizState.total_questions state0)).
  { intros state0. unfold engine.remaining_questions.
    destruct (Z.geb_spec (Z.of_nat (length (QuizState.history state0)))
                         (QuizState.total_questions state0));
      [rewrite bool_decide_eq_true_2 by lia
      |rewrite bool_decide_eq_false_2 by lia]; done. }
  rewrite Hremaining.
  destruct (Z.of_nat (length (QuizState.history base))
              >=? QuizState.total_questions base) eqn:Hfull;
    destruct (engine.is_time_up base now) eqn:Hlate; cbn [orb].
  - change (engine.is_time_up (QuizState.set_completed true base) now)
      with (engine.is_time_up base now).
    cbn. by rewrite Hfull, !orb_true_r.
  - change (engine.is_time_up (QuizState.set_completed true base) now)
      with (engine.is_time_up base now).
    cbn. by rewrite Hfull, !orb_true_r.
  - change (engine.is_time_up (QuizState.set_completed true base) now)
      with (engine.is_time_up base now).
    cbn. by rewrite Hlate, !orb_true_r.
  - by rewrite Hfull, Hlate, Hcompleted, !orb_false_r.
Qed.

(** [_select_car] on a pool that is not empty clears the used ids when
    every record has been used, and changes nothing else of the state. *)
Lemma select_car_state index state (rng : Rng) :
  DatasetIndex.records index <> [] ->
  (engine._select_car index state rng).1.2
  = if Z.of_nat (length (DatasetIndex.records index))
         - Z.of_nat (size (QuizState.used_ids state)) <=? 0
    then QuizState.set_used_ids ∅ state else state.
Proof.
  intros Hpool.
  unfold engine._select_car, DatasetIndex.get_random_pool.
  set (pool := DatasetIndex.records index) in *.
  set (state1 := if _ <=? 0 then _ else state).
  destruct pool as [|record records] eqn:Hrecords; [done|].
  rewrite <- Hrecords. clearbody state1.
  destruct (engine.random_tries _ _ _ _) as [[[candidate|]|e] rng']; try done.
  by destruct (engine.first_unused _ _).
Qed.

(** [_select_car] keeps the state, or clears its used ids. *)
Lemma select_car_state_cases index state (rng : Rng) :
  (engine._select_car index state rng).1.2 = state
  \/ (engine._select_car index state rng).1.2 = QuizState.set_used_ids ∅ state.
Proof.
  destruct (DatasetIndex.records index) as [|record records] eqn:Hrecords.
  - left. unfold engine._select_car, DatasetIndex.get_random_pool.
    by rewrite Hrecords.
  - rewrite select_car_state by (by rewrite Hrecords).
    destruct (_ <=? 0); [by right | by left].
Qed.


(** [ensure_question] when a new question is due: the car is selected, the
    choices are generated, the question is stored. *)
Lemma ensure_question_due state index (now : float) (unseeded : Rng) :
  QuizState.completed state = false ->
  engine.is_time_up state now = false ->
  QuizState.current_question state = None ->
  Z.of_nat (length (QuizState.history state)) < QuizState.total_questions state ->
  let rng0 :=
    match QuizState.rng state with
    | Some rng => rng
    | None =>
        match QuizState.rng_seed state with
        | Some seed => Random seed
        | None => unseeded
        end
    end in
  let selection :=
    engine._select_car index (QuizState.set_rng (Some rng0) state) rng0 in
  engine.ensure_question state index now unseeded
  = match selection.1.1 with
    | Raise e => (Raise e, QuizState.set_rng (Some selection.2) selection.1.2)
    | Ok car =>
        let generated :=
          options.generate_choices car index (QuizState.mode state)
            engine.DEFAULT_CHOICE_COUNT (Some selection.2) unseeded in
        match generated.1 with
        | Raise e =>
            (Raise e, QuizState.set_rng (Some generated.2) selection.1.2)
        | Ok choices =>
            let question :=
              {| QuizQuestion.number :=
                   Z.of_nat (length (QuizState.history state)) + 1;
                 QuizQuestion.car := car;
                 QuizQuestion.choices := choices |} in
            (Ok (Some question),
             QuizState.set_used_ids
               (QuizState.used_ids selection.1.2 ∪ {[CarImage.id car]})
               (QuizState.set_current_question (Some question)
                  (QuizState.set_rng (Some generated.2) selection.1.2)))
        end
    end.
Proof.
  intros Hcompleted Htime Hcurrent Hhistory rng0 selection.
  unfold engine.ensure_question.
  rewrite Hcompleted, Htime, Hcurrent.
  rewrite Z.geb_leb, (proj2 (Z.leb_gt _ _)) by lia.
  fold rng0. fold selection.
  pose proof (select_car_state_cases index
                (QuizState.set_rng (Some rng0) state) rng0) as Hstate.
  fold selection in Hstate.
  destruct selection as [[selected state1] rng1]. cbn [fst snd] in *.
  destruct selected as [car|e]; [|done].
  assert (Hmode : QuizState.mode (QuizState.set_rng (Some rng1) state1)
                  = QuizState.mode state)
    by (by destruct Hstate as [-> | ->]).
  assert (Hlength : QuizState.history state1 = QuizState.history state)
    by (by destruct Hstate as [-> | ->]).
  rewrite Hmode.
  destruct (options.generate_choices _ _ _ _ _ _) as [[choices|e] rng2];
    cbn [fst snd]; [|done].
  cbn. by rewrite Hlength.
Qed.

(** Looking up the id of the correct record finds its own choice. *)
Lemma find_choice_correct (mode : QuizMode.t) (correct : CarImage.t)
    (cars : list CarImage.t) :
  correct ∈ cars ->
  (forall car, car ∈ cars ->
     car = correct \/ CarImage.id car <> CarImage.id correct) ->
  engine.find_choice_in (options.to_choice mode <$> cars) (CarImage.id correct)
  = Some (options.to_choice mode correct).
Proof.
  induction cars as [|car cars IH]; intros Hin Hcars.
  { by apply not_elem_of_nil in Hin. }
  rewrite fmap_cons. cbn [engine.find_choice_in options.to_choice AnswerChoice.id].
  destruct (decide (CarImage.id car = CarImage.id correct)) as [Hsame|Hother].
  - destruct (Hcars car (list_elem_of_here _ _)) as [->|Hdiff]; done.
  - apply IH.
    + apply elem_of_cons in Hin as [->|Hin]; done.
    + intros car' Hin'. by apply Hcars, list_elem_of_further.
Qed.

Lemma default_choice_count : 2 <= engine.DEFAULT_CHOICE_COUNT.
Proof. unfold engine.DEFAULT_CHOICE_COUNT. lia. Qed.


(** The score of a guess that is the correct record itself. *)
Lemma compute_score_same (car : CarImage.t) (mode : QuizMode.t) :
  engine._compute_score car car mode
  = {| ScoreDetail.points := 1.0%float;
       ScoreDetail.max_points := 1.0%float;
       ScoreDetail.make_correct := true;
       ScoreDetail.model_correct := true;
       ScoreDetail.year_correct := true;
       ScoreDetail.mode := mode |}.
Proof.
  unfold engine._compute_score.
  rewrite !bool_decide_eq_true_2 by done. by destruct mode.
Qed.

(** X20. A question that ensure_question has just generated can always be
    answered right: submitting the id of the question's car is accepted and
    scores the full point with the three flags set, whatever the mode and
    the index, and the question is answered with the choice of that car. *)
Theorem new_question_right_answer state index (now now' : float)
    (unseeded : Rng) question state' :
  QuizState.current_question state = None ->
  engine.ensure_question state index now unseeded
  = (Ok (Some question), state') ->
  exists detail state'',
    engine.submit_answer state'
      (CarImage.id (QuizQuestion.car question)) now'
    = (Ok detail, state'')
    /\ ScoreDetail.points detail = 1.0%float
    /\ ScoreDetail.max_points detail = 1.0%float
    /\ ScoreDetail.make_correct detail = true
    /\ ScoreDetail.model_correct detail = true
    /\ ScoreDetail.year_correct detail = true
    /\ ScoreDetail.mode detail = QuizState.mode state
    /\ QuizState.score state'' = (QuizState.score state + 1.0)%float
    /\ QuizState.history state''
       = QuizState.history state
         ++ [ {| QuestionResult.question := question;
                 QuestionResult.selected_choice :=
                   options.to_choice (QuizState.mode state)
                     (QuizQuestion.car question);
                 QuestionResult.score := detail |} ].
Proof.
  intros Hcurrent Hensure.
  destruct (QuizState.completed state) eqn:Hcompleted;
    [by unfold engine.ensure_question in Hensure; rewrite Hcompleted in Hensure|].
  destruct (engine.is_time_up state now) eqn:Htime;
    [by unfold engine.ensure_question in Hensure;
        rewrite Hcompleted, Htime in Hensure|].
  destruct (Z.ltb_spec (Z.of_nat (length (QuizState.history state)))
                       (QuizState.total_questions state)) as [Hhistory|Hdone];
    [|by unfold engine.ensure_question in Hensure;
         rewrite Hcompleted, Htime, Hcurrent, Z.geb_leb,
           (proj2 (Z.leb_le _ _)) in Hensure by done].
  pose proof (ensure_question_due state index now unseeded
                Hcompleted Htime Hcurrent Hhistory) as Hdue.
  cbv zeta in Hdue. rewrite Hdue in Hensure. clear Hdue.
  set (rng0 := match QuizState.rng state with Some _ => _ | None => _ end)
    in Hensure.
  pose proof (select_car_state_cases index
                (QuizState.set_rng (Some rng0) state) rng0) as Hstate.
  destruct (engine._select_car index _ rng0) as [[[car|e] state1] rng1];
    cbn [fst snd] in *; [|done].
  destruct (generate_choices_cars car index (QuizState.mode state)
              engine.DEFAULT_CHOICE_COUNT default_choice_count
              (Some rng1) unseeded)
    as (cars & rng2 & Hgenerated & Hcorrect & _ & Hcars).
  rewrite Hgenerated in Hensure. cbn [fst snd] in Hensure.
  injection Hensure as <- <-.
  unfold engine.submit_answer, engine._find_choice.
  cbn [QuizState.current_question QuizState.set_used_ids
       QuizState.set_current_question QuizQuestion.car QuizQuestion.choices].
  rewrite find_choice_correct; [|done|].
  2:{ intros car' Hin. destruct (Hcars car' Hin) as [->|[Hdiff _]];
        [by left | by right]. }
  cbn [AnswerChoice.car options.to_choice].
  rewrite compute_score_same.
  eexists _, _. split; [reflexivity|].
  cbn [ScoreDetail.points ScoreDetail.max_points ScoreDetail.make_correct
       ScoreDetail.model_correct ScoreDetail.year_correct ScoreDetail.mode].
  assert (Hmode : QuizState.mode state1 = QuizState.mode state)
    by (by destruct Hstate as [-> | ->]).
  assert (Hscore : QuizState.score state1 = QuizState.score state)
    by (by destruct Hstate as [-> | ->]).
  assert (Hlist : QuizState.history state1 = QuizState.history state)
    by (by destruct Hstate as [-> | ->]).
  do 5 (split; [done|]).
  split; [by destruct state1|].
  split.
  - match goal with
    | |- QuizState.score (if ?b then _ else _) = _ => destruct b
    end; destruct state1; cbn in *; by subst.
  - match goal with
    | |- QuizState.history (if ?b then _ else _) = _ => destruct b
    end; destruct state1; cbn in *; by subst.
Qed.

(** X21. What ensure_question returns stays: after it returned a question,
    the quiz is not completed, the question is the current one, and a
    further call before the time is up returns the same question and
    changes nothing; after it returned None the quiz is completed and every
    further call returns None and changes nothing. *)
Theorem ensure_question_again state index (now : float) (unseeded : Rng)
    outcome state' :
  engine.ensure_question state index now unseeded = (Ok outcome, state') ->
  match outcome with
  | Some question =>
      QuizState.current_question state' = Some question
      /\ QuizState.completed state' = false
      /\ forall index' (now' : float) (unseeded' : Rng),
           engine.is_time_up state' now' = false ->
           engine.ensure_question state' index' now' unseeded'
           = (Ok (Some question), state')
  | None =>
      QuizState.completed state' = true
      /\ forall index' (now' : float) (unseeded' : Rng),
           engine.ensure_question state' index' now' unseeded'
           = (Ok None, state')
  end.
Proof.
  intros Hensure.
  assert (Hstay : forall question,
            QuizState.current_question state' = Some question ->
            QuizState.completed state' = false ->
            forall index' (now' : float) (unseeded' : Rng),
              engine.is_time_up state' now' = false ->
              engine.ensure_question state' index' now' unseeded'
              = (Ok (Some question), state')).
  { intros question Hcurrent' Hcompleted' index' now' unseeded' Htime'.
    unfold engine.ensure_question.
    by rewrite Hcompleted', Htime', Hcurrent'. }
  assert (Hover : QuizState.completed state' = true ->
            forall index' (now' : float) (unseeded' : Rng),
              engine.ensure_question state' index' now' unseeded'
              = (Ok None, state')).
  { intros Hcompleted' index' now' unseeded'.
    unfold engine.ensure_question. by rewrite Hcompleted'. }
  assert (Hstate' :
            match outcome with
            | Some question =>
                QuizState.current_question state' = Some question
                /\ QuizState.completed state' = false
            | None => QuizState.completed state' = true
            end).
  { destruct (QuizState.completed state) eqn:Hcompleted.
    { unfold engine.ensure_question in Hensure. rewrite Hcompleted in Hensure.
      by injection Hensure as <- <-. }
    destruct (engine.is_time_up state now) eqn:Htime.
    { unfold engine.ensure_question in Hensure.
      rewrite Hcompleted, Htime in Hensure. by injection Hensure as <- <-. }
    destruct (QuizState.current_question state) as [question|] eqn:Hcurrent.
    { unfold engine.ensure_question in Hensure.
      rewrite Hcompleted, Htime, Hcurrent in Hensure.
      by injection Hensure as <- <-. }
    destruct (Z.ltb_spec (Z.of_nat (length (QuizState.history state)))
                         (QuizState.total_questions state)) as [Hhistory|Hdone].
    2:{ unfold engine.ensure_question in Hensure.
        rewrite Hcompleted, Htime, Hcurrent, Z.geb_leb,
          (proj2 (Z.leb_le _ _)) in Hensure by done.
        by injection Hensure as <- <-. }
    pose proof (ensure_question_due state index now unseeded
                  Hcompleted Htime Hcurrent Hhistory) as Hdue.
    cbv zeta in Hdue. rewrite Hdue in Hensure. clear Hdue.
    set (rng0 := match QuizState.rng state with Some _ => _ | None => _ end)
      in Hensure.
    pose proof (select_car_state_cases index
                  (QuizState.set_rng (Some rng0) state) rng0) as Hstate.
    destruct (engine._select_car index _ rng0) as [[[car|e] state1] rng1];
      cbn [fst snd] in *; [|done].
    destruct (options.generate_choices _ _ _ _ _ _) as [[choices|e] rng2];
      cbn [fst snd] in *; [|done].
    injection Hensure as <- <-. split; [done|].
    by destruct Hstate as [-> | ->]. }
  destruct outcome as [question|].
  - destruct Hstate' as [Hcurrent' Hcompleted'].
    split; [done|]. split; [done|]. by apply Hstay.
  - split; [done|]. by apply Hover.
Qed.

(** X22. reset_quiz_state keeps nothing of the state it resets but the
    number of questions: the result is the state that create_quiz_state
    makes for that number of questions. *)
Theorem reset_is_create state (mode : QuizMode.t) (duration_seconds : Z)
    (seed : option Z) (now : float) (now_ns : Z) :
  engine.reset_quiz_state state mode duration_seconds seed now now_ns
  = engine.create_quiz_state mode (QuizState.total_questions state)
      duration_seconds seed now now_ns.
Proof. by destruct state. Qed.
End SessionMore.

(** * The further properties on the sample data *)

Section MoreSamples.
Import reference examples showroom.

(** A file name without underscores is skipped. *)
Lemma skip_short_name :
  (count_char "_" (path_stem ("data/civic15.jpg" : Path)) < 16)%nat
  /\ parser.parse_filename ("data/civic15.jpg" : Path) = Ok None.
Proof.
  assert (Hfew : (count_char "_" (path_stem ("data/civic15.jpg" : Path))
                  < 16)%nat)
    by (apply Nat.ltb_lt; exact eq_refl).
  split; [exact Hfew|].
  exact (parse_filename_few_underscores "data/civic15.jpg" Hfew).
Defined.

(** The record of a file of the dataset's schema. *)
Lemma civic_file_specs :
  exists car,
    parser.parse_filename (civic_file : Path) = Ok (Some car)
    /\ CarImage.year car = 2015
    /\ size (CarImage.specs car) = 16%nat
    /\ CarImage.specs car !! "model" = Some (CarImage.model car).
Proof.
  eexists. split; [exact eq_refl|]. split; [exact eq_refl|].
  pose proof (parse_filename_specs civic_file _ eq_refl)
    as (_ & Hsize & _ & Hmodel & _).
  split; [exact Hsize | exact Hmodel].
Defined.


(** Without a cache file the index is built. *)
Lemma load_showroom_without_cache :
  (FileSystem.read_json disk (join "cache" indexer.CACHE_FILENAME) = None
   \/ (exists e,
         FileSystem.read_json disk (join "cache" indexer.CACHE_FILENAME)
         = Some (Raise e))
   \/ (exists index stored,
         FileSystem.read_json disk (join "cache" indexer.CACHE_FILENAME)
         = Some (Ok (DatasetIndex.to_json_serializable index stored))
         /\ indexer._compute_digest disk (indexer._iter_image_paths disk "data")
            <> Ok stored))
  /\ indexer.load_index disk "data" "cache" "thumbs" false
     = indexer.load_index disk "data" "cache" "thumbs" true.
Proof.
  assert (Hmiss :
            FileSystem.read_json disk (join "cache" indexer.CACHE_FILENAME) = None
            \/ (exists e,
                  FileSystem.read_json disk (join "cache" indexer.CACHE_FILENAME)
                  = Some (Raise e))
            \/ (exists index stored,
                  FileSystem.read_json disk (join "cache" indexer.CACHE_FILENAME)
                  = Some (Ok (DatasetIndex.to_json_serializable index stored))
                  /\ indexer._compute_digest disk
                       (indexer._iter_image_paths disk "data")
                     <> Ok stored))
    by (left; exact eq_refl).
  split; [exact Hmiss|].
  exact (load_index_cache_miss disk "data" "cache" "thumbs" Hmiss).
Defined.

(** Loading the sample directory a second time. *)
Lemma load_showroom_twice :
  exists index disk',
    indexer.load_index disk "data" "cache" "thumbs" true = (Ok index, disk')
    /\ indexer.load_index disk' "data" "cache" "thumbs" false
       = (Ok index, disk').
Proof.
  eexists _, _. split; [exact eq_refl|].
  exact (load_index_twice disk "data" "cache" "thumbs" true _ _ eq_refl).
Defined.

(** The index of the sample directory is the one built from its records. *)
Lemma load_showroom_groups :
  exists index disk',
    indexer.load_index disk "data" "cache" "thumbs" true = (Ok index, disk')
    /\ DatasetIndex.records index <> []
    /\ groups_within_records index.
Proof.
  eexists _, _. split; [exact eq_refl|].
  pose proof (load_index_nonempty disk "data" "cache" "thumbs" true _ _ eq_refl)
    as (Hrecords & _ & Hgroups).
  split; [exact Hrecords | exact Hgroups].
Defined.

(** The ids of the sample directory's records are the stems of its files. *)
Lemma load_showroom_ids :
  exists index disk',
    indexer.load_index disk "data" "cache" "thumbs" true = (Ok index, disk')
    /\ NoDup (path_stem <$> indexer._iter_image_paths disk "data")
    /\ NoDup (CarImage.id <$> DatasetIndex.records index).
Proof.
  eexists _, _. split; [exact eq_refl|].
  assert (Hstems : NoDup (path_stem <$> indexer._iter_image_paths disk "data"))
    by (apply (bool_decide_unpack _); exact I).
  split; [exact Hstems|].
  exact (proj2 (load_index_ids disk "data" "cache" "thumbs" _ _ eq_refl) Hstems).
Defined.

(** Three choices out of the index that has two records of one id. *)
Lemma choices_from_shared_id :
  2 <= 3
  /\ exists choices,
       (options.generate_choices civic_2015 shared_id
          QuizMode.MAKE_MODEL_YEAR 3 (Some 7) 0).1 = Ok choices
       /\ 1 <= Z.of_nat (length choices) <= 3
       /\ options.to_choice QuizMode.MAKE_MODEL_YEAR civic_2015 ∈ choices.
Proof.
  assert (Htotal : 2 <= 3) by lia.
  split; [exact Htotal|].
  destruct (generate_choices_any_index civic_2015 shared_id
              QuizMode.MAKE_MODEL_YEAR 3 Htotal (Some 7) 0)
    as (choices & Hchoices & Hlength & Hcorrect & _).
  exists choices. split; [exact Hchoices|].
  split; [exact Hlength | exact Hcorrect].
Defined.

(** The labels of four choices in the mode of the makes. *)
Lemma labels_of_four_cars :
  2 <= 4
  /\ exists choices,
       (options.generate_choices civic_2015 four_cars
          QuizMode.MAKE 4 (Some 7) 0).1 = Ok choices
       /\ (NoDup (AnswerChoice.label <$> choices)
           \/ forall car,
                car ∈ DatasetIndex.records four_cars ->
                CarImage.id car <> CarImage.id civic_2015 ->
                options.format_label car QuizMode.MAKE
                ∈ AnswerChoice.label <$> choices).
Proof.
  assert (Htotal : 2 <= 4) by lia.
  split; [exact Htotal|].
  exact (generate_choices_labels civic_2015 four_cars QuizMode.MAKE 4 Htotal
           (Some 7) 0).
Defined.

(** The first tier for the Civic of 2015 is the other Civic. *)
Lemma first_tier_of_four_cars :
  2 <= 3
  /\ head (options.candidate_pools civic_2015 four_cars
             QuizMode.MAKE_MODEL_YEAR {[CarImage.id civic_2015]})
     = Some [civic_2016]
  /\ exists choices,
       (options.generate_choices civic_2015 four_cars
          QuizMode.MAKE_MODEL_YEAR 3 (Some 7) 0).1 = Ok choices
       /\ ((forall choice,
              choice ∈ choices ->
              choice = options.to_choice QuizMode.MAKE_MODEL_YEAR civic_2015
              \/ AnswerChoice.car choice ∈ [civic_2016])
           \/ forall car,
                car ∈ [civic_2016] ->
                options.format_label car QuizMode.MAKE_MODEL_YEAR
                ∈ AnswerChoice.label <$> choices).
Proof.
  assert (Htotal : 2 <= 3) by lia.
  assert (Hhead : head (options.candidate_pools civic_2015 four_cars
                          QuizMode.MAKE_MODEL_YEAR {[CarImage.id civic_2015]})
                  = Some [civic_2016])
    by exact eq_refl.
  split; [exact Htotal|]. split; [exact Hhead|].
  exact (generate_choices_first_tier civic_2015 four_cars
           QuizMode.MAKE_MODEL_YEAR 3 Htotal (Some 7) 0 [civic_2016] Hhead).
Defined.


(** After the first of ten answers the quiz goes on. *)
Lemma answer_first_of_ten :
  exists detail state',
    engine.submit_answer asked "civic15" 1%float = (Ok detail, state')
    /\ QuizState.completed state' = false
    /\ engine.remaining_questions state' = 9
    /\ engine.is_time_up state' 1%float = false.
Proof.
  eexists _, _. split; [exact eq_refl|].
  pose proof (submit_answer_completes asked "civic15" 1%float _ _ eq_refl)
    as Hcompleted.
  split; [exact Hcompleted|]. split; exact eq_refl.
Defined.


(** The right answer to the first question of a fresh quiz. *)
Lemma right_answer_to_first_question :
  QuizState.current_question fresh_state = None
  /\ exists question state' detail state'',
       engine.ensure_question fresh_state four_cars 1%float 0
       = (Ok (Some question), state')
       /\ engine.submit_answer state'
            (CarImage.id (QuizQuestion.car question)) 2%float
          = (Ok detail, state'')
       /\ ScoreDetail.points detail = 1.0%float.
Proof.
  split; [exact eq_refl|].
  eexists _, _.
  destruct (new_question_right_answer fresh_state four_cars 1%float 2%float 0
              _ _ eq_refl eq_refl)
    as (detail & state'' & Hsubmit & Hpoints & _).
  exists detail, state''. split; [exact eq_refl|].
  split; [exact Hsubmit | exact Hpoints].
Defined.

(** Asking twice for the first question of a fresh quiz. *)
Lemma first_question_again :
  exists question state',
    engine.ensure_question fresh_state four_cars 1%float 0
    = (Ok (Some question), state')
    /\ engine.ensure_question state' one_car 2%float 5
       = (Ok (Some question), state').
Proof.
  eexists _, _. split; [exact eq_refl|].
  pose proof (ensure_question_again fresh_state four_cars 1%float 0 _ _ eq_refl)
    as (_ & _ & Hagain).
  exact (Hagain one_car 2%float 5 eq_refl).
Defined.
End MoreSamples.
